(** * photo-mood: the mood-tagger worker (src/mood-tagger/main.py)

    A shallow embedding of the worker's core: the tag deriver
    [extract_mood_tags], the job processor [process_image], the queue
    loop [queue_worker] and [startup_event], followed by the properties
    established about them.

    Conventions.
    - A Python [str] is a [string] holding its UTF-8 bytes.  Substring
      search for an ASCII needle gives the same answer on bytes as on
      code points, so [in] is byte-wise containment.
    - What the Python runtime decides and the source does not (Unicode
      lower-casing, the iteration order of a [set]) is an interface,
      [PyRuntime]; every statement is made for an arbitrary instance.
    - Collaborators outside the repository (base64, PIL, the model, the
      Redis client, the clock) are parameters whose calls return or
      raise. *)

From Stdlib Require Import String Ascii List Bool Arith Lia Permutation.
Import ListNotations.
Open Scope string_scope.
Open Scope list_scope.
Set Warnings "-register-all".

(* ================================================================== *)
(** ** Python strings *)

Module PyStr.

(** [sub in s] on strings: some suffix of [s] starts with [sub]. *)
Fixpoint str_in (sub s : string) : bool :=
  if prefix sub s then true
  else match s with
       | EmptyString => false
       | String _ s' => str_in sub s'
       end.

(** ASCII part of [str.lower]: [A-Z] move to [a-z], the rest stays. *)
Definition ascii_lower (c : ascii) : ascii :=
  let n := nat_of_ascii c in
  if (65 <=? n)%nat && (n <=? 90)%nat then ascii_of_nat (n + 32) else c.

Fixpoint lower_ascii (s : string) : string :=
  match s with
  | EmptyString => EmptyString
  | String c s' => String (ascii_lower c) (lower_ascii s')
  end.

Fixpoint is_ascii (s : string) : bool :=
  match s with
  | EmptyString => true
  | String c s' => (nat_of_ascii c <? 128)%nat && is_ascii s'
  end.

(** [any(w in s for w in words)] *)
Definition any_in (words : list string) (s : string) : bool :=
  existsb (fun w => str_in w s) words.

End PyStr.
Export PyStr.

(* ================================================================== *)
(** ** Python sets of strings

    A set is represented by its elements in insertion order, without
    repetition.  Iterating a set ([list(tags)]) goes through the
    runtime, see [set_iter] below. *)

Module PySet.

Definition pyset := list string.

Definition mem (x : string) (s : pyset) : bool := existsb (String.eqb x) s.

Definition add (x : string) (s : pyset) : pyset :=
  if mem x s then s else s ++ [x].

(** [s.update(xs)] *)
Definition update (s : pyset) (xs : list string) : pyset :=
  fold_left (fun acc x => add x acc) xs s.

(** truth value of a set or list: non-empty *)
Definition truthy {A} (l : list A) : bool :=
  match l with [] => false | _ :: _ => true end.

End PySet.

(** What the runtime fixes: lower-casing beyond ASCII, and the order in
    which a set hands out its elements. *)
Class PyRuntime := {
  str_lower : string -> string;
  str_lower_ascii : forall s, is_ascii s = true -> str_lower s = lower_ascii s;
  set_iter : PySet.pyset -> list string;
  set_iter_perm : forall s, Permutation (set_iter s) s
}.

(* ================================================================== *)
(** ** The tag deriver *)

Module TagDeriver.

Definition mood_mappings : list (string * list string) :=
  [ ("sunny", ["bright"; "cheerful"; "warm"]);
    ("bright", ["happy"; "vibrant"; "energetic"]);
    ("dark", ["moody"; "mysterious"; "dramatic"]);
    ("colorful", ["joyful"; "lively"; "playful"]);
    ("peaceful", ["calm"; "serene"; "tranquil"]);
    ("beautiful", ["elegant"; "lovely"; "aesthetic"]);
    ("green", ["natural"; "fresh"; "organic"]);
    ("blue", ["cool"; "calm"; "peaceful"]);
    ("red", ["passionate"; "bold"; "energetic"]);
    ("yellow", ["cheerful"; "sunny"; "bright"]);
    ("orange", ["warm"; "vibrant"; "enthusiastic"]);
    ("purple", ["mystical"; "luxurious"; "dreamy"]);
    ("black", ["moody"; "minimalist"; "bold"]);
    ("white", ["clean"; "peaceful"; "pure"]);
    ("water", ["refreshing"; "fluid"; "clean"]);
    ("flower", ["delicate"; "beautiful"; "natural"]);
    ("sunset", ["romantic"; "warm"; "golden"]);
    ("sunrise", ["hopeful"; "gentle"; "fresh"]);
    ("rain", ["melancholic"; "calm"; "moody"]);
    ("snow", ["quiet"; "cold"; "magical"]);
    ("storm", ["chaotic"; "powerful"; "intense"]);
    ("city", ["urban"; "dynamic"; "modern"]);
    ("mountain", ["majestic"; "strong"; "elevated"]);
    ("beach", ["relaxing"; "tropical"; "carefree"]);
    ("forest", ["natural"; "mysterious"; "earthy"]);
    ("desert", ["vast"; "dry"; "isolated"]);
    ("sky", ["open"; "free"; "airy"]);
    ("smile", ["happy"; "joyful"; "positive"]);
    ("laugh", ["cheerful"; "carefree"; "uplifting"]);
    ("cry", ["emotional"; "sad"; "touching"]);
    ("child", ["innocent"; "joyful"; "pure"]);
    ("baby", ["cute"; "gentle"; "tender"]);
    ("dog", ["friendly"; "loyal"; "playful"]);
    ("cat", ["elegant"; "mysterious"; "independent"]);
    ("bird", ["free"; "graceful"; "light"]);
    ("food", ["appetizing"; "delicious"; "satisfying"]);
    ("drink", ["refreshing"; "inviting"; "cool"]);
    ("old", ["vintage"; "nostalgic"; "classic"]);
    ("new", ["modern"; "fresh"; "contemporary"]);
    ("vintage", ["nostalgic"; "retro"; "classic"]);
    ("abstract", ["artistic"; "imaginative"; "creative"]);
    ("minimal", ["clean"; "simple"; "focused"]);
    ("crowd", ["busy"; "chaotic"; "lively"]);
    ("alone", ["solitary"; "quiet"; "introspective"]);
    ("dance", ["energetic"; "expressive"; "joyful"]);
    ("music", ["rhythmic"; "soulful"; "emotional"]);
    ("light", ["hopeful"; "bright"; "glowing"]);
    ("shadow", ["dark"; "mysterious"; "introspective"]);
    ("fire", ["intense"; "hot"; "powerful"]);
    ("night", ["quiet"; "romantic"; "mysterious"]) ].

Definition positive_words : list string := ["beautiful"; "nice"; "good"; "lovely"].
Definition posture_words : list string := ["sitting"; "standing"; "lying"].

(** One turn of [for keyword, associated_moods in mood_mappings.items()]. *)
Definition scan_step (caption_lower : string) (tags : PySet.pyset)
    (item : string * list string) : PySet.pyset :=
  let '(keyword, associated_moods) := item in
  if str_in keyword caption_lower
  then PySet.update tags (firstn 2 associated_moods)
  else tags.

(** The loop over a mapping [m], from the set [tags]. *)
Definition scan (m : list (string * list string)) (caption_lower : string)
    (tags : PySet.pyset) : PySet.pyset :=
  fold_left (scan_step caption_lower) m tags.

(** The set [tags] when the loop over the lexicon is done. *)
Definition lexicon_tags (caption_lower : string) : PySet.pyset :=
  scan mood_mappings caption_lower [].

(** The [if not tags:] block. *)
Definition with_fallback (caption_lower : string) (tags : PySet.pyset) : PySet.pyset :=
  if negb (PySet.truthy tags) then
    if any_in positive_words caption_lower
    then PySet.update tags ["pleasant"; "positive"]
    else if any_in posture_words caption_lower
    then PySet.update tags ["calm"; "relaxed"]
    else PySet.update tags ["neutral"; "balanced"]
  else tags.

Definition extract_mood_tags `{PyRuntime} (caption : string) : list string :=
  let caption_lower := str_lower caption in
  let tags := lexicon_tags caption_lower in
  let tags := with_fallback caption_lower tags in
  firstn 6 (set_iter tags).

(** *** Vocabulary of the statements *)

(** The keywords of the lexicon, in its order. *)
Definition keywords : list string := map fst mood_mappings.

(** [t] is one of the first two moods of a keyword of [m] that occurs
    in [cl]. *)
Definition derived (m : list (string * list string)) (cl t : string) : Prop :=
  exists kw moods, In (kw, moods) m /\ str_in kw cl = true /\ In t (firstn 2 moods).

(** Every entry of the lexicon starts with two different moods. *)
Definition two_moods (item : string * list string) : bool :=
  match snd item with
  | a :: b :: _ => negb (String.eqb a b)
  | _ => false
  end.

(** The set handed to [list(...)]. *)
Definition final_tags (cl : string) : PySet.pyset := with_fallback cl (lexicon_tags cl).

(** The components of a list of pairs. *)
Definition flatten_pairs (ps : list (string * string)) : list string :=
  flat_map (fun p => [fst p; snd p]) ps.

End TagDeriver.

(* ================================================================== *)
(** ** Python values, exceptions and calls that may raise *)

Module Py.

(** What [json.loads] yields.  An object keeps its members as an
    association list; [lookup] takes the first binding of a key. *)
Inductive json :=
| JNull
| JBool (b : bool)
| JNumber (literal : string)
| JStr (s : string)
| JArr (items : list json)
| JObj (members : list (string * json)).

Fixpoint lookup (key : string) (members : list (string * json)) : option json :=
  match members with
  | [] => None
  | (k, v) :: rest => if String.eqb k key then Some v else lookup key rest
  end.

(** Subclasses of [Exception].  [Error] stands for those raised inside
    a collaborator, with the text [str(e)] gives. *)
Inductive exn :=
| KeyError (key : string)
| TypeError (msg : string)
| AttributeError (msg : string)
| JSONDecodeError (msg : string)
| Error (msg : string).

(** [str(e)]; a [KeyError] shows the repr of its key. *)
Definition str_exn (e : exn) : string :=
  match e with
  | KeyError key => ("'" ++ key ++ "'")%string
  | TypeError msg | AttributeError msg | JSONDecodeError msg | Error msg => msg
  end.

Definition is_JSONDecodeError (e : exn) : bool :=
  match e with JSONDecodeError _ => true | _ => false end.

(** A call without suspension point: it returns or raises. *)
Inductive outcome (A : Type) :=
| Return (a : A)
| Raise (e : exn).
Arguments Return {A} a.
Arguments Raise {A} e.

Definition bind {A B} (m : outcome A) (f : A -> outcome B) : outcome B :=
  match m with
  | Return a => f a
  | Raise e => Raise e
  end.

(** [try: body except Exception as e: handler e] *)
Definition try_except {A} (body : outcome A) (handler : exn -> outcome A) : outcome A :=
  match body with
  | Return a => Return a
  | Raise e => handler e
  end.

(** The name of a value's type, as error messages print it. *)
Definition type_name (v : json) : string :=
  match v with
  | JNull => "NoneType"
  | JBool _ => "bool"
  | JNumber literal =>
      if any_in ["."; "e"; "E"] literal then "float" else "int"
  | JStr _ => "str"
  | JArr _ => "list"
  | JObj _ => "dict"
  end.

(** [v[key]] for a string key: only a dict can answer. *)
Definition subscript (v : json) (key : string) : outcome json :=
  match v with
  | JObj members =>
      match lookup key members with
      | Some x => Return x
      | None => Raise (KeyError key)
      end
  | JStr _ => Raise (TypeError "string indices must be integers, not 'str'")
  | JArr _ => Raise (TypeError "list indices must be integers or slices, not str")
  | JNull | JBool _ | JNumber _ =>
      Raise (TypeError ("'" ++ type_name v ++ "' object is not subscriptable")%string)
  end.

(** [v.get(key, default)]: only a dict has the method. *)
Definition get (v : json) (key : string) (default : json) : outcome json :=
  match v with
  | JObj members =>
      Return (match lookup key members with Some x => x | None => default end)
  | _ =>
      Raise (AttributeError ("'" ++ type_name v ++ "' object has no attribute 'get'")%string)
  end.

End Py.
Export Py.

Declare Scope py_scope.
Delimit Scope py_scope with py.
Notation "x <- m ;; k" := (Py.bind m (fun x => k))
  (at level 61, m at next level, right associativity) : py_scope.

(** The collaborators of the worker: base64, PIL, the captioning model
    behind [processor] and [model], [json.loads], the clock and the
    process identity. *)
Class Collaborators := {
  image : Type;
  b64decode : json -> outcome string;
  image_open : string -> outcome image;
  image_mode : image -> string;
  image_convert : image -> string -> outcome image;
  generate_caption : image -> outcome string;
  json_loads : string -> outcome json;
  now_isoformat : string;
  WORKER_ID : string
}.

(* ================================================================== *)
(** ** The job processor *)

Module JobProcessor.
Import TagDeriver.

Record result := {
  requestId : json;
  success : bool;
  data : option (list string * string);   (* tags, caption *)
  error : option string;
  worker : string;
  processedAt : string
}.

Definition default_tags : list string := ["artistic"; "visual"; "expressive"].

Section ProcessImage.
Context `{PyRuntime} `{Collaborators}.
Local Open Scope py_scope.

(** The [try] block of [process_image]. *)
Definition process_image_body (job_data : json) : outcome result :=
  request_id <- subscript job_data "requestId" ;;
  file_name <- subscript job_data "fileName" ;;
  image_data <- subscript job_data "imageData" ;;
  image_bytes <- b64decode image_data ;;
  pil_image <- image_open image_bytes ;;
  pil_image <- (if String.eqb (image_mode pil_image) "RGB"
                then Return pil_image
                else image_convert pil_image "RGB") ;;
  caption <- generate_caption pil_image ;;
  let tags := extract_mood_tags caption in
  let tags := if negb (PySet.truthy tags) then default_tags else tags in
  Return {| requestId := request_id;
            success := true;
            data := Some (tags, caption);
            error := None;
            worker := WORKER_ID;
            processedAt := now_isoformat |}.

(** The [except Exception as e] block. *)
Definition process_image_handler (job_data : json) (e : exn) : outcome result :=
  request_id <- get job_data "requestId" (JStr "unknown") ;;
  Return {| requestId := request_id;
            success := false;
            data := None;
            error := Some (str_exn e);
            worker := WORKER_ID;
            processedAt := now_isoformat |}.

Definition process_image (job_data : json) : outcome result :=
  try_except (process_image_body job_data) (process_image_handler job_data).

End ProcessImage.

(** *** Vocabulary of the statements *)

(** Every exception a collaborator raises has a text. *)
Definition raises_with_text `{Collaborators} : Prop :=
  (forall v e, b64decode v = Raise e -> str_exn e <> "") /\
  (forall b e, image_open b = Raise e -> str_exn e <> "") /\
  (forall i m e, image_convert i m = Raise e -> str_exn e <> "") /\
  (forall i e, generate_caption i = Raise e -> str_exn e <> "").

(** [job_data.get('requestId', 'unknown')] on a dict *)
Definition request_id_or_unknown (members : list (string * json)) : json :=
  match lookup "requestId" members with
  | Some x => x
  | None => JStr "unknown"
  end.

End JobProcessor.

(* ================================================================== *)
(** ** Coroutines: a trace of calls, and a result that may be an
    exception or a cancellation *)

Module Async.
Import JobProcessor.

(** How an awaited call ends.  [asyncio.CancelledError] is not an
    [Exception]: [except Exception] lets it through. *)
Inductive res (A : Type) :=
| Ok (a : A)
| Exc (e : exn)
| Cancel.
Arguments Ok {A} a.
Arguments Exc {A} e.
Arguments Cancel {A}.

Inductive log_line :=
| LogStarting
| LogReceived (request_id : json)
| LogPublished (request_id : json)
| LogInvalidJob (e : exn)
| LogJobError (e : exn)
| LogCancelled
| LogWorkerError (e : exn)
| LogStarted
| LogShutdown.

(** What the worker does to the outside, in order. *)
Inductive event :=
| Log (l : log_line)
| Publish (channel : string) (message : result)
| Sleep (seconds : nat)
| CreateTask (coroutine : string).

(** A computation: the calls it made, and how it ended. *)
Definition M (A : Type) : Type := list event * res A.

Definition ret {A} (a : A) : M A := ([], Ok a).

Definition bind {A B} (m : M A) (f : A -> M B) : M B :=
  match m with
  | (tr, Ok a) => let '(tr', r) := f a in (tr ++ tr', r)
  | (tr, Exc e) => (tr, Exc e)
  | (tr, Cancel) => (tr, Cancel)
  end.

Definition emit (ev : event) : M unit := ([ev], Ok tt).

(** [await] on a call whose reply is [r] *)
Definition await {A} (r : res A) : M A := ([], r).

Definition lift {A} (o : outcome A) : M A :=
  match o with
  | Return a => ret a
  | Raise e => ([], Exc e)
  end.

(** [try: body except Exception as e: handler e] *)
Definition try_exception {A} (body : M A) (handler : exn -> M A) : M A :=
  match body with
  | (tr, Exc e) => let '(tr', r) := handler e in (tr ++ tr', r)
  | other => other
  end.

(** [try: body except asyncio.CancelledError: on_cancel
     except Exception as e: handler e] *)
Definition try_cancelled_exception {A} (body : M A) (on_cancel : M A)
    (handler : exn -> M A) : M A :=
  match body with
  | (tr, Ok a) => (tr, Ok a)
  | (tr, Cancel) => let '(tr', r) := on_cancel in (tr ++ tr', r)
  | (tr, Exc e) => let '(tr', r) := handler e in (tr ++ tr', r)
  end.

End Async.

Declare Scope async_scope.
Delimit Scope async_scope with async.
Notation "x <- m ;; k" := (Async.bind m (fun x => k))
  (at level 61, m at next level, right associativity) : async_scope.
Notation "m ;; k" := (Async.bind m (fun _ => k))
  (at level 61, right associativity) : async_scope.

(* ================================================================== *)
(** ** The worker loop *)

Module Worker.
Import JobProcessor Async.

Definition RESULT_CHANNEL : string := "mood-results".

(** The replies of the outside during one turn of the loop: to
    [brpop], to [publish] should it be called, and whether the task is
    cancelled while it sleeps. *)
Record turn := {
  brpop_reply : res (option (string * string));
  publish_reply : res unit;
  sleep_cancelled : bool
}.

(** How a turn of [while True] ends when nothing escapes it. *)
Inductive control := Next | Break.

Section QueueWorker.
Context `{PyRuntime} `{Collaborators}.
Local Open Scope async_scope.

Definition publish (t : turn) (channel : string) (message : result) : M unit :=
  emit (Publish channel message) ;; await (publish_reply t).

Definition sleep (t : turn) (seconds : nat) : M unit :=
  emit (Sleep seconds) ;; await (if sleep_cancelled t then Cancel else Ok tt).

(** The inner [try] with its two handlers, for a popped [job_data]. *)
Definition handle_job (t : turn) (job_data : string) : M control :=
  try_exception
    (job <- lift (json_loads job_data) ;;
     request_id <- lift (subscript job "requestId") ;;
     emit (Log (LogReceived request_id)) ;;
     result <- lift (process_image job) ;;
     publish t RESULT_CHANNEL result ;;
     emit (Log (LogPublished (requestId result))) ;;
     ret Next)
    (fun e =>
       if is_JSONDecodeError e
       then emit (Log (LogInvalidJob e)) ;; ret Next
       else emit (Log (LogJobError e)) ;; ret Next).

(** The body of [while True]. *)
Definition iteration (t : turn) : M control :=
  try_cancelled_exception
    (result <- await (brpop_reply t) ;;
     match result with
     | Some (queue_name, job_data) => handle_job t job_data
     | None => ret Next
     end)
    (emit (Log LogCancelled) ;; ret Break)
    (fun e => emit (Log (LogWorkerError e)) ;; sleep t 5 ;; ret Next).

(** The loop, over the replies of successive turns.  [None]: every
    turn given was taken and the loop is still running. *)
Fixpoint while_true (turns : list turn) : list event * option (res unit) :=
  match turns with
  | [] => ([], None)
  | t :: rest =>
      match iteration t with
      | (tr, Ok Next) => let '(tr', r) := while_true rest in (tr ++ tr', r)
      | (tr, Ok Break) => (tr, Some (Ok tt))
      | (tr, Exc e) => (tr, Some (Exc e))
      | (tr, Cancel) => (tr, Some Cancel)
      end
  end.

Definition queue_worker (turns : list turn) : list event * option (res unit) :=
  let '(tr, r) := while_true turns in (Log LogStarting :: tr, r).

End QueueWorker.

(** *** Vocabulary of the statements *)

(** The [publish] calls of a trace. *)
Definition publishes (tr : list event) : list (string * result) :=
  flat_map (fun ev => match ev with Publish c m => [(c, m)] | _ => [] end) tr.


End Worker.

(* ================================================================== *)
(** ** Startup *)

Module Startup.
Import Async.

Definition model_name : string := "HuggingFaceTB/SmolVLM-256M-Instruct".

(** The module's global variables; [None] is Python's [None]. *)
Record globals := {
  model : option string;
  processor : option string;
  redis_client : option string;
  worker_task : option string
}.

Definition initial_globals : globals :=
  {| model := None; processor := None; redis_client := None; worker_task := None |}.

(** The replies of the outside during startup. *)
Record boot := {
  processor_from_pretrained : string -> outcome string;
  model_from_pretrained : string -> outcome string;
  redis_from_url : outcome string;
  ping_reply : res unit
}.

Definition load_model (b : boot) (g : globals) : globals * bool :=
  match processor_from_pretrained b model_name with
  | Raise e => (g, false)
  | Return p =>
      let g := {| model := model g; processor := Some p;
                  redis_client := redis_client g; worker_task := worker_task g |} in
      match model_from_pretrained b model_name with
      | Raise e => (g, false)
      | Return m =>
          ({| model := Some m; processor := processor g;
              redis_client := redis_client g; worker_task := worker_task g |}, true)
      end
  end.

Definition startup_event (b : boot) (g : globals) : globals * M unit :=
  let '(g, success) := load_model b g in
  if negb success then (g, ret tt)
  else
    match redis_from_url b with
    | Raise e => (g, ret tt)
    | Return client =>
        let g := {| model := model g; processor := processor g;
                    redis_client := Some client; worker_task := worker_task g |} in
        match ping_reply b with
        | Exc e => (g, ret tt)
        | Cancel => (g, await Cancel)
        | Ok _ =>
            ({| model := model g; processor := processor g;
                redis_client := redis_client g;
                worker_task := Some "queue_worker" |},
             ([CreateTask "queue_worker"; Log LogStarted], Ok tt))
        end
    end.

(** [shutdown_event], given how the cancelled worker ends and what
    [close] replies.  Awaiting a task that ended with the cancellation
    exception raises it in the awaiter. *)
Definition shutdown_event (g : globals) (worker_end close_reply : res unit) : M unit :=
  (match worker_task g with
   | Some _ => try_cancelled_exception (await worker_end) (ret tt) (fun e => await (Exc e))
   | None => ret tt
   end ;;
   match redis_client g with
   | Some _ => await close_reply
   | None => ret tt
   end ;;
   emit (Log LogShutdown))%async.

(** *** Vocabulary of the statements *)

(** The trace holds the creation of the worker task. *)
Definition creates_worker (tr : list event) : bool :=
  existsb (fun ev => match ev with CreateTask _ => true | _ => false end) tr.

End Startup.

(* ================================================================== *)
(** ** Instances and inputs used in examples *)

Module Examples.
Import Async Worker Startup.

(** A runtime that lower-cases ASCII only and iterates in insertion
    order. *)
Definition simple_runtime : PyRuntime :=
  {| str_lower := lower_ascii;
     str_lower_ascii := fun s _ => eq_refl;
     set_iter := fun s => s;
     set_iter_perm := fun s => Permutation_refl s |}.

(** A runtime that iterates sets in reverse insertion order. *)
Definition reversed_runtime : PyRuntime :=
  {| str_lower := lower_ascii;
     str_lower_ascii := fun s _ => eq_refl;
     set_iter := fun s => rev s;
     set_iter_perm := fun s => Permutation_sym (Permutation_rev s) |}.

(** Collaborators for examples: base64 text with a "!" does not decode,
    bytes that do not start with PNG are no image, the captioner always
    describes the same beach, and [json.loads] knows the empty object. *)
Definition fake_collaborators : Collaborators :=
  {| image := string;
     b64decode := fun v =>
       match v with
       | JStr s => if str_in "!" s then Raise (Error "Incorrect padding") else Return s
       | _ => Raise (TypeError "argument should be a bytes-like object or ASCII string")
       end;
     image_open := fun bytes =>
       if prefix "PNG" bytes then Return bytes
       else Raise (Error "cannot identify image file");
     image_mode := fun _ => "RGB";
     image_convert := fun img _ => Return img;
     generate_caption := fun _ => Return "A sunny beach with bright colors";
     json_loads := fun s =>
       if String.eqb s "{}" then Return (JObj [])
       else Raise (JSONDecodeError "Expecting value: line 1 column 1 (char 0)");
     now_isoformat := "2024-01-01T00:00:00";
     WORKER_ID := "mood-worker-1" |}.

(** A caption in which seven keywords with pairwise disjoint moods occur. *)
Definition crowded_caption : string :=
  "sunny bright dark colorful peaceful beautiful green".

Definition crowded_pairs : list (string * string) :=
  [ ("bright", "cheerful"); ("happy", "vibrant"); ("moody", "mysterious");
    ("joyful", "lively"); ("calm", "serene"); ("elegant", "lovely");
    ("natural", "fresh") ].

Definition beach_caption : string := "A sunny beach with bright colors".

Definition sitting_caption : string := "A person sitting quietly".

(** A turn in which the pop fails and the task is cancelled while it
    backs off. *)
Definition outage_then_cancel : turn :=
  {| brpop_reply := Exc (Error "Connection refused");
     publish_reply := Ok tt;
     sleep_cancelled := true |}.

(** A turn in which the payload [{}] is popped. *)
Definition pops_empty_object : turn :=
  {| brpop_reply := Ok (Some ("mood-analysis-queue", "{}"));
     publish_reply := Ok tt;
     sleep_cancelled := false |}.

(** Replies under which both models load and Redis answers. *)
Definition healthy_boot : boot :=
  {| processor_from_pretrained := fun name => Return name;
     model_from_pretrained := fun name => Return name;
     redis_from_url := Return "redis://localhost:6379";
     ping_reply := Ok tt |}.

End Examples.
Export Examples.

(* ================================================================== *)
(** ** The health endpoint *)

Module Health.
Import Async Startup.

(** The dict [health_check] returns. *)
Record report := {
  status : string;
  service : string;
  worker : string;
  model_loaded : bool;
  redis : string;
  queue : string
}.

(** [try: body except: handler]: a bare [except] catches every
    exception, the cancellation too. *)
Definition try_bare_except {A} (body : M A) (handler : M A) : M A :=
  match body with
  | (tr, Ok a) => (tr, Ok a)
  | (tr, Exc _) | (tr, Cancel) => let '(tr', r) := handler in (tr ++ tr', r)
  end.

(** [x is not None] *)
Definition is_not_none {A} (x : option A) : bool :=
  match x with Some _ => true | None => false end.

Section HealthCheck.
Context `{Collaborators}.
(** The queue name, read from the environment when the module loads. *)
Variable QUEUE_NAME : string.
Local Open Scope async_scope.

(** [health_check], given the globals and what [ping] replies. *)
Definition health_check (g : globals) (ping_reply : res unit) : M report :=
  redis_status <-
    try_bare_except
      (match redis_client g with
       | Some _ => await ping_reply ;; ret "connected"
       | None => ret "disconnected"
       end)
      (ret "error") ;;
  ret {| status := if is_not_none (model g) && String.eqb redis_status "connected"
                   then "healthy" else "unhealthy";
         service := "mood-tagger";
         worker := WORKER_ID;
         model_loaded := is_not_none (model g);
         redis := redis_status;
         queue := QUEUE_NAME |}.

End HealthCheck.
End Health.

(* ================================================================== *)
(** ** Further vocabulary and inputs *)

Module Vocabulary.
Import TagDeriver JobProcessor Async Worker.

(** The entries of the lexicon whose keyword occurs in [cl]. *)
Definition found_entries (cl : string) : list (string * list string) :=
  filter (fun item => str_in (fst item) cl) mood_mappings.

(** The dict of the [except] block, for a request id and a text. *)
Definition failure_result `{Collaborators} (request_id : json) (text : string) : result :=
  {| requestId := request_id;
     success := false;
     data := None;
     error := Some text;
     worker := WORKER_ID;
     processedAt := now_isoformat |}.

(** The trace holds a [sleep] of [n]. *)
Definition sleeps_for (n : nat) (tr : list event) : Prop := In (Sleep n) tr.

(** The double quote, and the payload of a job that has only a request
    id. *)
Definition double_quote : string := String (ascii_of_nat 34) EmptyString.

Definition r1_payload : string :=
  ("{" ++ double_quote ++ "requestId" ++ double_quote ++ ": "
       ++ double_quote ++ "r1" ++ double_quote ++ "}")%string.

(** [fake_collaborators] with a [json.loads] that also reads
    [r1_payload]. *)
Definition reading_collaborators : Collaborators :=
  {| image := string;
     b64decode := @b64decode fake_collaborators;
     image_open := @image_open fake_collaborators;
     image_mode := @image_mode fake_collaborators;
     image_convert := @image_convert fake_collaborators;
     generate_caption := @generate_caption fake_collaborators;
     json_loads := fun s =>
       if String.eqb s r1_payload then Return (JObj [("requestId", JStr "r1")])
       else @json_loads fake_collaborators s;
     now_isoformat := @now_isoformat fake_collaborators;
     WORKER_ID := @WORKER_ID fake_collaborators |}.

(** A turn in which [r1_payload] is popped and [publish] fails. *)
Definition pops_r1_publish_fails : turn :=
  {| brpop_reply := Ok (Some ("mood-analysis-queue", r1_payload));
     publish_reply := Exc (Error "Connection reset by peer");
     sleep_cancelled := false |}.

(** A turn in which [brpop] times out. *)
Definition times_out : turn :=
  {| brpop_reply := Ok None; publish_reply := Ok tt; sleep_cancelled := false |}.

(** Startup replies under which the models load and the client is
    built, but the ping fails. *)
Definition unreachable_boot : Startup.boot :=
  {| Startup.processor_from_pretrained := fun name => Return name;
     Startup.model_from_pretrained := fun name => Return name;
     Startup.redis_from_url := Return "redis://localhost:6379";
     Startup.ping_reply := Exc (Error "Connection refused") |}.

End Vocabulary.
Export Vocabulary.

(* ================================================================== *)
(** * Properties *)

(** ** Strings and sets *)

Module PyStrFacts.

Lemma prefix_app (sub s : string) :
  prefix sub s = true <-> exists post, s = (sub ++ post)%string.
Proof.
  revert s; induction sub as [|c sub IH]; intros s.
  - split; [intros _; exists s; reflexivity | intros _; destruct s; reflexivity].
  - destruct s as [|d s]; simpl.
    + split; [discriminate | intros [post Hp]; discriminate].
    + destruct (Ascii.ascii_dec c d) as [->|Hcd].
      * rewrite IH. split; intros [post Hp]; exists post.
        -- now rewrite Hp.
        -- now inversion Hp.
      * split; [discriminate | intros [post Hp]; congruence].
Qed.

(** [str_in] is containment: [sub] sits between some [pre] and [post]. *)
Lemma str_in_spec (sub s : string) :
  str_in sub s = true <-> exists pre post, s = (pre ++ sub ++ post)%string.
Proof.
  induction s as [|c s IH]; cbn [str_in].
  - destruct (prefix sub "") eqn:Hp.
    + apply prefix_app in Hp as [post Hp]. split; [intros _ | reflexivity].
      exists "", post. exact Hp.
    + split; [discriminate|]. intros (pre & post & Heq).
      destruct pre; [|discriminate]. simpl in Heq.
      assert (prefix sub "" = true) by (apply prefix_app; eauto). congruence.
  - destruct (prefix sub (String c s)) eqn:Hp.
    + apply prefix_app in Hp as [post Hp]. split; [intros _ | reflexivity].
      exists "", post. exact Hp.
    + rewrite IH. split.
      * intros (pre & post & ->). now exists (String c pre), post.
      * intros (pre & post & Heq). destruct pre as [|d pre]; simpl in Heq.
        -- assert (prefix sub (String c s) = true) by (apply prefix_app; eauto).
           congruence.
        -- inversion Heq. eauto.
Qed.

Lemma any_in_true (words : list string) (s : string) :
  any_in words s = true <-> exists w, In w words /\ str_in w s = true.
Proof. unfold any_in. apply existsb_exists. Qed.

End PyStrFacts.

Module PySetFacts.
Import PySet.

Lemma mem_In (x : string) (s : pyset) : mem x s = true <-> In x s.
Proof.
  unfold mem. rewrite existsb_exists. split.
  - intros (y & Hy & Heq). apply String.eqb_eq in Heq. now subst.
  - intros Hx. exists x. split; [assumption | apply String.eqb_refl].
Qed.

Lemma add_In (x y : string) (s : pyset) : In y (add x s) <-> y = x \/ In y s.
Proof.
  unfold add. destruct (mem x s) eqn:Hm.
  - apply mem_In in Hm. split; [now right | intros [->|]; assumption].
  - rewrite in_app_iff. simpl. intuition auto.
Qed.

Lemma add_NoDup (x : string) (s : pyset) : NoDup s -> NoDup (add x s).
Proof.
  intros Hs. unfold add. destruct (mem x s) eqn:Hm; [assumption|].
  apply NoDup_app; [assumption | repeat constructor; intros [] | ].
  intros y Hy [<-|[]]. apply mem_In in Hy. congruence.
Qed.

Lemma update_In (xs : list string) (s : pyset) (y : string) :
  In y (update s xs) <-> In y s \/ In y xs.
Proof.
  unfold update. revert s. induction xs as [|x xs IH]; intros s; simpl.
  - tauto.
  - rewrite IH, add_In. intuition auto.
Qed.

Lemma update_NoDup (xs : list string) (s : pyset) : NoDup s -> NoDup (update s xs).
Proof.
  unfold update. revert s. induction xs as [|x xs IH]; intros s Hs; simpl.
  - assumption.
  - apply IH, add_NoDup, Hs.
Qed.

End PySetFacts.

(** ** The tag deriver *)

Module TagDeriverFacts.
Import PySet PySetFacts PyStrFacts TagDeriver.

Lemma mood_mappings_two_moods : forallb two_moods mood_mappings = true.
Proof. vm_compute. reflexivity. Qed.

Lemma entry_two_moods kw moods :
  In (kw, moods) mood_mappings ->
  exists a b rest, moods = a :: b :: rest /\ a <> b.
Proof.
  intros Hin.
  pose proof (proj1 (forallb_forall _ _) mood_mappings_two_moods _ Hin) as Hw.
  unfold two_moods in Hw. simpl in Hw.
  destruct moods as [|a [|b rest]]; try discriminate.
  exists a, b, rest. split; [reflexivity|].
  intros ->. rewrite String.eqb_refl in Hw. discriminate.
Qed.

Lemma scan_cons item m cl tags :
  scan (item :: m) cl tags = scan m cl (scan_step cl tags item).
Proof. reflexivity. Qed.

Lemma scan_In m cl tags t :
  In t (scan m cl tags) <-> In t tags \/ derived m cl t.
Proof.
  revert tags. induction m as [|[kw moods] m IH]; intros tags.
  - simpl. split; [auto|]. intros [Ht|(k & ms & [] & _)]. exact Ht.
  - rewrite scan_cons, IH. unfold scan_step, derived.
    destruct (str_in kw cl) eqn:Hkw.
    + rewrite update_In. split.
      * intros [[Ht|Ht]|(k & ms & Hin & Hk & Ht)].
        -- now left.
        -- right. exists kw, moods. simpl. auto.
        -- right. exists k, ms. simpl. auto.
      * intros [Ht|(k & ms & [Heq|Hin] & Hk & Ht)].
        -- auto.
        -- inversion Heq; subst. auto.
        -- right. exists k, ms. auto.
    + split.
      * intros [Ht|(k & ms & Hin & Hk & Ht)]; [now left|].
        right. exists k, ms. simpl. auto.
      * intros [Ht|(k & ms & [Heq|Hin] & Hk & Ht)].
        -- auto.
        -- inversion Heq; subst. congruence.
        -- right. exists k, ms. auto.
Qed.

Lemma scan_NoDup m cl tags : NoDup tags -> NoDup (scan m cl tags).
Proof.
  revert tags. induction m as [|[kw moods] m IH]; intros tags Hnd.
  - exact Hnd.
  - rewrite scan_cons. apply IH. unfold scan_step.
    destruct (str_in kw cl); [apply update_NoDup|]; exact Hnd.
Qed.

Lemma lexicon_tags_In cl t : In t (lexicon_tags cl) <-> derived mood_mappings cl t.
Proof.
  unfold lexicon_tags. rewrite scan_In. simpl. tauto.
Qed.

Lemma lexicon_tags_NoDup cl : NoDup (lexicon_tags cl).
Proof. apply scan_NoDup. constructor. Qed.

Lemma keyword_found kw moods cl :
  In (kw, moods) mood_mappings -> str_in kw cl = true ->
  forall t, In t (firstn 2 moods) -> In t (lexicon_tags cl).
Proof.
  intros Hin Hkw t Ht. apply lexicon_tags_In. exists kw, moods. auto.
Qed.

(** The loop leaves [tags] empty exactly when no keyword occurs. *)
Lemma lexicon_tags_nil cl :
  lexicon_tags cl = [] <-> any_in keywords cl = false.
Proof.
  split.
  - intros Hnil. destruct (any_in keywords cl) eqn:Hany; [|reflexivity].
    apply any_in_true in Hany as (kw & Hk & Hin).
    unfold keywords in Hk. apply in_map_iff in Hk as ([kw' moods] & Heq & Hmm).
    simpl in Heq; subst kw'.
    destruct (entry_two_moods _ _ Hmm) as (a & b & rest & -> & _).
    assert (In a (lexicon_tags cl))
      by (apply (keyword_found kw (a :: b :: rest)); simpl; auto).
    rewrite Hnil in *. contradiction.
  - intros Hany. destruct (lexicon_tags cl) as [|t tags] eqn:Htags; [reflexivity|].
    assert (Ht : In t (lexicon_tags cl)) by (rewrite Htags; now left).
    apply lexicon_tags_In in Ht as (kw & moods & Hin & Hkw & _).
    assert (any_in keywords cl = true).
    { apply any_in_true. exists kw. split; [|exact Hkw].
      unfold keywords. apply in_map_iff. now exists (kw, moods). }
    congruence.
Qed.

Lemma with_fallback_nonempty cl tags : tags <> [] -> with_fallback cl tags = tags.
Proof. destruct tags; [contradiction | reflexivity]. Qed.

Lemma with_fallback_nil cl :
  with_fallback cl [] =
    if any_in positive_words cl then ["pleasant"; "positive"]
    else if any_in posture_words cl then ["calm"; "relaxed"]
    else ["neutral"; "balanced"].
Proof.
  unfold with_fallback. simpl negb. cbv iota.
  destruct (any_in positive_words cl); [reflexivity|].
  destruct (any_in posture_words cl); reflexivity.
Qed.

Lemma final_tags_not_nil cl : final_tags cl <> [].
Proof.
  unfold final_tags. destruct (lexicon_tags cl) as [|t tags] eqn:Htags.
  - rewrite with_fallback_nil.
    destruct (any_in positive_words cl); [discriminate|].
    destruct (any_in posture_words cl); discriminate.
  - rewrite with_fallback_nonempty; discriminate.
Qed.

Lemma final_tags_NoDup cl : NoDup (final_tags cl).
Proof.
  unfold final_tags. destruct (lexicon_tags cl) as [|t tags] eqn:Htags.
  - rewrite with_fallback_nil.
    destruct (any_in positive_words cl);
      [|destruct (any_in posture_words cl)];
      repeat constructor; simpl; intuition discriminate.
  - rewrite with_fallback_nonempty by discriminate.
    rewrite <- Htags. apply lexicon_tags_NoDup.
Qed.

Lemma NoDup_firstn {A} (n : nat) (l : list A) : NoDup l -> NoDup (firstn n l).
Proof.
  intros Hnd. rewrite <- (firstn_skipn n l) in Hnd.
  exact (NoDup_app_remove_r _ _ Hnd).
Qed.

Lemma In_firstn {A} (n : nat) (l : list A) (x : A) : In x (firstn n l) -> In x l.
Proof.
  intros Hx. rewrite <- (firstn_skipn n l). apply in_or_app. now left.
Qed.

Section WithRuntime.
Context `{PyRuntime}.

Lemma extract_mood_tags_eq caption :
  extract_mood_tags caption = firstn 6 (set_iter (final_tags (str_lower caption))).
Proof. unfold extract_mood_tags, final_tags. reflexivity. Qed.

Lemma extract_incl caption t :
  In t (extract_mood_tags caption) -> In t (final_tags (str_lower caption)).
Proof.
  rewrite extract_mood_tags_eq. intros Ht. apply In_firstn in Ht.
  exact (Permutation_in _ (set_iter_perm _) Ht).
Qed.

Lemma extract_NoDup caption : NoDup (extract_mood_tags caption).
Proof.
  rewrite extract_mood_tags_eq. apply NoDup_firstn.
  apply (Permutation_NoDup (Permutation_sym (set_iter_perm _))).
  apply final_tags_NoDup.
Qed.

Lemma extract_length caption :
  length (extract_mood_tags caption) = Nat.min 6 (length (final_tags (str_lower caption))).
Proof.
  rewrite extract_mood_tags_eq, length_firstn.
  now rewrite (Permutation_length (set_iter_perm _)).
Qed.

(** Nothing is cut when the set has at most six elements. *)
Lemma extract_all caption :
  length (final_tags (str_lower caption)) <= 6 ->
  Permutation (extract_mood_tags caption) (final_tags (str_lower caption)).
Proof.
  intros Hlen. rewrite extract_mood_tags_eq, firstn_all2.
  - apply set_iter_perm.
  - now rewrite (Permutation_length (set_iter_perm _)).
Qed.

(** At most [length - 6] elements of the set are cut. *)
Lemma extract_keeps_one caption a b :
  a <> b ->
  In a (final_tags (str_lower caption)) -> In b (final_tags (str_lower caption)) ->
  length (final_tags (str_lower caption)) <= 7 ->
  In a (extract_mood_tags caption) \/ In b (extract_mood_tags caption).
Proof.
  intros Hab Ha Hb Hlen. rewrite extract_mood_tags_eq.
  set (l := set_iter (final_tags (str_lower caption))).
  assert (Hl : length l <= 7)
    by (unfold l; now rewrite (Permutation_length (set_iter_perm _))).
  assert (Hal : In a l) by exact (Permutation_in _ (Permutation_sym (set_iter_perm _)) Ha).
  assert (Hbl : In b l) by exact (Permutation_in _ (Permutation_sym (set_iter_perm _)) Hb).
  rewrite <- (firstn_skipn 6 l) in Hal, Hbl.
  apply in_app_or in Hal, Hbl.
  destruct Hal as [Hal|Hal]; [now left|].
  destruct Hbl as [Hbl|Hbl]; [now right|].
  exfalso.
  assert (Hs : length (skipn 6 l) <= 1) by (rewrite length_skipn; lia).
  destruct (skipn 6 l) as [|x [|y rest]]; simpl in *; try lia; try contradiction.
  destruct Hal as [<-|[]], Hbl as [<-|[]]. now apply Hab.
Qed.

Lemma str_lower_literal s : is_ascii s = true -> lower_ascii s = s -> str_lower s = s.
Proof. intros Ha Hs. rewrite str_lower_ascii by exact Ha. exact Hs. Qed.

End WithRuntime.

(** *** Covering pairwise disjoint pairs needs one element per pair *)
Lemma disjoint_pairs_cover (ps : list (string * string)) :
  NoDup (flatten_pairs ps) ->
  forall out : list string,
  (forall a b, In (a, b) ps -> In a out \/ In b out) ->
  length ps <= length out.
Proof.
  induction ps as [|[a b] ps IH]; intros Hnd out Hcov.
  - simpl. lia.
  - simpl in Hnd. inversion Hnd as [|? ? Ha Hnd']; subst.
    inversion Hnd' as [|? ? Hb Hnd'']; subst.
    assert (Hx : exists x, (x = a \/ x = b) /\ In x out).
    { destruct (Hcov a b (or_introl eq_refl)); eauto. }
    destruct Hx as (x & Hx & Hxo).
    assert (Hfresh : ~ In x (flatten_pairs ps)).
    { destruct Hx as [->| ->]; [|exact Hb]. intros Hin. apply Ha. now right. }
    pose proof (remove_length_lt string_dec out x Hxo) as Hlt.
    assert (Hle : length ps <= length (remove string_dec x out)).
    { apply IH; [exact Hnd''|]. intros a' b' Hin.
      assert (Ha' : In a' (flatten_pairs ps)).
      { unfold flatten_pairs. apply in_flat_map. exists (a', b'). simpl. auto. }
      assert (Hb' : In b' (flatten_pairs ps)).
      { unfold flatten_pairs. apply in_flat_map. exists (a', b'). simpl. auto. }
      destruct (Hcov a' b' (or_intror Hin)) as [Ho|Ho]; [left|right];
        apply in_in_remove; try exact Ho; intros ->; contradiction. }
    simpl. lia.
Qed.

(** Some pair of [ps] has neither component in [out], or all have one. *)
Lemma uncovered_pair_dec (ps : list (string * string)) (out : list string) :
  (exists a b, In (a, b) ps /\ ~ In a out /\ ~ In b out) \/
  (forall a b, In (a, b) ps -> In a out \/ In b out).
Proof.
  induction ps as [|[a b] ps IH].
  - right. intros a b [].
  - destruct (in_dec string_dec a out) as [Ha|Ha].
    2: destruct (in_dec string_dec b out) as [Hb|Hb].
    3: { left. exists a, b. simpl. auto. }
    all: destruct IH as [(a' & b' & Hin & Hn)|Hall];
      [ left; exists a', b'; simpl; auto
      | right; intros a' b' [Heq|Hin]; [inversion Heq; subst; auto | auto] ].
Qed.

End TagDeriverFacts.

(* ================================================================== *)
(** * The tag deriver: statements *)

Module TagDeriverSpec.
Import PySet PySetFacts PyStrFacts TagDeriver TagDeriverFacts.

Example sitting_example :
  @extract_mood_tags simple_runtime "A person sitting quietly" = ["calm"; "relaxed"].
Proof. vm_compute. reflexivity. Qed.

Example substring_example :
  @extract_mood_tags simple_runtime "Scattered clouds" = ["passionate"; "bold"; "elegant"; "mysterious"].
Proof. vm_compute. reflexivity. Qed.

(** Which six tags survive depends on the order of iteration. *)
Example truncation_depends_on_order :
  @extract_mood_tags simple_runtime "sunny bright dark colorful" =
    ["bright"; "cheerful"; "happy"; "vibrant"; "moody"; "mysterious"] /\
  @extract_mood_tags reversed_runtime "sunny bright dark colorful" =
    ["lively"; "joyful"; "mysterious"; "moody"; "vibrant"; "happy"].
Proof. split; vm_compute; reflexivity. Qed.

Ltac in_lexicon := unfold mood_mappings; repeat (first [left; reflexivity | right]).

Ltac distinct_strings := repeat constructor; simpl; intuition discriminate.

(** C4, as stated, fails: whatever the order in which the set is
    iterated, the six tags kept for [crowded_caption] miss both moods of
    one of the keywords it contains. *)
Lemma truncation_drops_a_keyword :
  exists caption, forall R : PyRuntime, exists kw moods,
    In (kw, moods) mood_mappings /\
    str_in kw (str_lower caption) = true /\
    forall m, In m (firstn 2 moods) -> ~ In m (extract_mood_tags caption).
Proof.
  exists crowded_caption. intros R.
  assert (Hlow : str_lower crowded_caption = crowded_caption)
    by (apply str_lower_literal; vm_compute; reflexivity).
  destruct (uncovered_pair_dec crowded_pairs (extract_mood_tags crowded_caption))
    as [(a & b & Hin & Ha & Hb)|Hall].
  - assert (Hcase :
      forall kw third, In (kw, [a; b; third]) mood_mappings ->
        str_in kw crowded_caption = true ->
        exists kw moods, In (kw, moods) mood_mappings /\
          str_in kw (str_lower crowded_caption) = true /\
          forall m, In m (firstn 2 moods) -> ~ In m (extract_mood_tags crowded_caption)).
    { intros kw third Hm Hk. exists kw, [a; b; third]. rewrite Hlow.
      repeat split; try assumption.
      simpl. intros m [<-|[<-|[]]]; assumption. }
    simpl in Hin.
    destruct Hin as [Heq|[Heq|[Heq|[Heq|[Heq|[Heq|[Heq|[]]]]]]]];
      inversion Heq; subst a b.
    + apply (Hcase "sunny" "warm"); [in_lexicon | reflexivity].
    + apply (Hcase "bright" "energetic"); [in_lexicon | reflexivity].
    + apply (Hcase "dark" "dramatic"); [in_lexicon | reflexivity].
    + apply (Hcase "colorful" "playful"); [in_lexicon | reflexivity].
    + apply (Hcase "peaceful" "tranquil"); [in_lexicon | reflexivity].
    + apply (Hcase "beautiful" "aesthetic"); [in_lexicon | reflexivity].
    + apply (Hcase "green" "organic"); [in_lexicon | reflexivity].
  - exfalso.
    assert (Hnd : NoDup (flatten_pairs crowded_pairs)) by distinct_strings.
    pose proof (disjoint_pairs_cover crowded_pairs Hnd _ Hall) as Hlen.
    rewrite extract_length in Hlen.
    change (length crowded_pairs) with 7 in Hlen. lia.
Qed.

(** C4 (amended): when the keywords found in the lower-cased caption
    put at most seven different moods into the set, the returned tags
    contain at least one of the first two moods of each keyword found. *)
Theorem keyword_mood_survives `{PyRuntime} (caption kw : string) (moods : list string) :
  In (kw, moods) mood_mappings ->
  str_in kw (str_lower caption) = true ->
  length (lexicon_tags (str_lower caption)) <= 7 ->
  exists m, In m (firstn 2 moods) /\ In m (extract_mood_tags caption).
Proof.
  intros Hin Hkw Hlen.
  destruct (entry_two_moods _ _ Hin) as (a & b & rest & -> & Hab).
  assert (Ha : In a (lexicon_tags (str_lower caption)))
    by (apply (keyword_found kw (a :: b :: rest)); simpl; auto).
  assert (Hb : In b (lexicon_tags (str_lower caption)))
    by (apply (keyword_found kw (a :: b :: rest)); simpl; auto).
  assert (Hfin : final_tags (str_lower caption) = lexicon_tags (str_lower caption)).
  { unfold final_tags. apply with_fallback_nonempty.
    intros Hnil. rewrite Hnil in Ha. contradiction. }
  destruct (extract_keeps_one caption a b Hab) as [Hm|Hm];
    rewrite ?Hfin; try assumption.
  - exists a. simpl. auto.
  - exists b. simpl. auto.
Qed.

(** Seven moods are gathered, "sunny" is cut, and "cheerful" stands for
    the keyword "yellow". *)
Lemma keyword_mood_survives_witness :
  exists m, In m ["cheerful"; "sunny"] /\
            In m (@extract_mood_tags simple_runtime "sunny bright dark yellow").
Proof.
  apply (@keyword_mood_survives simple_runtime "sunny bright dark yellow"
           "yellow" ["cheerful"; "sunny"; "bright"]).
  - in_lexicon.
  - reflexivity.
  - vm_compute. lia.
Defined.


(** "pleasant" is not among the moods the lexicon can contribute. *)
Lemma pleasant_not_derived cl : ~ derived mood_mappings cl "pleasant".
Proof.
  intros (kw & moods & Hin & _ & Hm).
  assert (Hall : forallb (fun item => negb (mem "pleasant" (firstn 2 (snd item))))
                   mood_mappings = true) by (vm_compute; reflexivity).
  pose proof (proj1 (forallb_forall _ _) Hall _ Hin) as Hneg. cbn [snd] in Hneg.
  apply mem_In in Hm. rewrite Hm in Hneg. discriminate.
Qed.

Lemma beautiful_is_keyword cl : str_in "beautiful" cl = true -> any_in keywords cl = true.
Proof.
  intros Hb. apply any_in_true. exists "beautiful". split; [|exact Hb].
  unfold keywords, mood_mappings. simpl. tauto.
Qed.

Lemma final_tags_keyword cl :
  any_in keywords cl = true -> final_tags cl = lexicon_tags cl.
Proof.
  intros Hkw. apply with_fallback_nonempty.
  intros Hnil. apply lexicon_tags_nil in Hnil. congruence.
Qed.

Lemma final_tags_no_keyword cl :
  any_in keywords cl = false -> final_tags cl = with_fallback cl [].
Proof.
  intros Hno. apply lexicon_tags_nil in Hno.
  exact (f_equal (with_fallback cl) Hno).
Qed.

Section Statements.
Context `{PyRuntime}.

Lemma no_keyword_tags caption :
  any_in keywords (str_lower caption) = false ->
  Permutation (extract_mood_tags caption) (with_fallback (str_lower caption) []).
Proof.
  intros Hno.
  rewrite <- (final_tags_no_keyword _ Hno). apply extract_all.
  rewrite (final_tags_no_keyword _ Hno), with_fallback_nil.
  destruct (any_in positive_words _); [|destruct (any_in posture_words _)]; simpl; lia.
Qed.

Lemma keyword_tags caption t :
  any_in keywords (str_lower caption) = true ->
  In t (extract_mood_tags caption) -> derived mood_mappings (str_lower caption) t.
Proof.
  intros Hkw Ht. apply extract_incl in Ht.
  rewrite (final_tags_keyword _ Hkw) in Ht.
  now apply lexicon_tags_In.
Qed.

Lemma empty_caption_lower : str_lower "" = "".
Proof. now rewrite str_lower_ascii. Qed.

End Statements.

(** C6: without a keyword in the lower-cased caption (the empty caption
    is such a one) the tags are exactly the fallback set of the first
    tier that applies; with a keyword, every tag comes from the
    lexicon. *)
Theorem fallback_exclusive `{PyRuntime} (caption : string) :
  let cl := str_lower caption in
  let tags := extract_mood_tags caption in
  (caption = "" \/ any_in keywords cl = false ->
     if any_in positive_words cl then Permutation tags ["pleasant"; "positive"]
     else if any_in posture_words cl then Permutation tags ["calm"; "relaxed"]
     else Permutation tags ["neutral"; "balanced"]) /\
  (caption = "" -> Permutation tags ["neutral"; "balanced"]) /\
  (any_in keywords cl = true -> forall t, In t tags -> derived mood_mappings cl t).
Proof.
  intros cl tags.
  assert (Hfall : any_in keywords cl = false ->
            if any_in positive_words cl then Permutation tags ["pleasant"; "positive"]
            else if any_in posture_words cl then Permutation tags ["calm"; "relaxed"]
            else Permutation tags ["neutral"; "balanced"]).
  { intros Hno. pose proof (no_keyword_tags caption Hno) as Hp.
    fold cl tags in Hp. rewrite with_fallback_nil in Hp.
    destruct (any_in positive_words cl); [|destruct (any_in posture_words cl)];
      exact Hp. }
  assert (Hempty : caption = "" -> cl = "")
    by (intros ->; apply empty_caption_lower).
  repeat split.
  - intros [He|Hno]; [|exact (Hfall Hno)].
    apply Hfall. rewrite (Hempty He). vm_compute. reflexivity.
  - intros He. specialize (Hempty He).
    assert (Hno : any_in keywords cl = false) by (rewrite Hempty; vm_compute; reflexivity).
    specialize (Hfall Hno). rewrite Hempty in Hfall. exact Hfall.
  - intros Hkw t Ht. exact (keyword_tags caption t Hkw Ht).
Qed.

(** The three tiers, on captions without a keyword. *)
Lemma fallback_exclusive_witness :
  Permutation (@extract_mood_tags simple_runtime "Two good friends") ["pleasant"; "positive"] /\
  Permutation (@extract_mood_tags simple_runtime "A man standing") ["calm"; "relaxed"] /\
  Permutation (@extract_mood_tags simple_runtime "") ["neutral"; "balanced"].
Proof.
  split; [|split].
  - exact (proj1 (@fallback_exclusive simple_runtime "Two good friends")
             (or_intror eq_refl)).
  - exact (proj1 (@fallback_exclusive simple_runtime "A man standing")
             (or_intror eq_refl)).
  - exact (proj1 (@fallback_exclusive simple_runtime "") (or_introl eq_refl)).
Defined.

(** C7, as stated, fails: "bright", a mood of the keyword "sunny", is
    returned under every iteration order and is not in the set the
    claim allows. *)
Lemma sunny_beach_has_bright :
  exists t,
    ~ In t ["cheerful"; "warm"; "happy"; "vibrant"; "energetic";
            "relaxing"; "tropical"; "carefree"] /\
    forall R : PyRuntime, In t (@extract_mood_tags R beach_caption).
Proof.
  exists "bright". split; [simpl; intuition discriminate|].
  intros R.
  assert (Hlow : str_lower beach_caption = "a sunny beach with bright colors")
    by (rewrite str_lower_ascii; vm_compute; reflexivity).
  pose proof (extract_all beach_caption) as Hp. rewrite Hlow in Hp.
  apply (Permutation_in _ (Permutation_sym (Hp ltac:(vm_compute; lia)))).
  vm_compute. auto.
Qed.

(** C7 (amended): the tags for [beach_caption] are the six moods
    bright, cheerful, happy, vibrant, relaxing, tropical in some order:
    a subset of the claim's set with "bright" added, of size at most 6
    and without duplicates. *)
Theorem sunny_beach_tags `{PyRuntime} :
  let tags := extract_mood_tags beach_caption in
  Permutation tags ["bright"; "cheerful"; "happy"; "vibrant"; "relaxing"; "tropical"] /\
  incl tags ["bright"; "cheerful"; "warm"; "happy"; "vibrant"; "energetic";
             "relaxing"; "tropical"; "carefree"] /\
  length tags <= 6 /\ NoDup tags.
Proof.
  intros tags.
  assert (Hlow : str_lower beach_caption = "a sunny beach with bright colors")
    by (rewrite str_lower_ascii; vm_compute; reflexivity).
  assert (Hp : Permutation tags
                 ["bright"; "cheerful"; "happy"; "vibrant"; "relaxing"; "tropical"]).
  { pose proof (extract_all beach_caption) as Hp. rewrite Hlow in Hp.
    exact (Hp ltac:(vm_compute; lia)). }
  split; [exact Hp|]. split; [|split].
  - intros t Ht. apply (Permutation_in _ Hp) in Ht. simpl in *. intuition auto.
  - rewrite (Permutation_length Hp). simpl. lia.
  - apply extract_NoDup.
Qed.

(** C8: no keyword of the lexicon occurs in "a person sitting quietly",
    and the tags are exactly calm and relaxed. *)
Theorem sitting_quietly_tags `{PyRuntime} :
  any_in keywords (str_lower sitting_caption) = false /\
  any_in positive_words (str_lower sitting_caption) = false /\
  any_in posture_words (str_lower sitting_caption) = true /\
  Permutation (extract_mood_tags sitting_caption) ["calm"; "relaxed"].
Proof.
  assert (Hlow : str_lower sitting_caption = "a person sitting quietly")
    by (rewrite str_lower_ascii; vm_compute; reflexivity).
  pose proof (no_keyword_tags sitting_caption) as Hp.
  rewrite Hlow in *.
  split; [vm_compute; reflexivity|].
  split; [vm_compute; reflexivity|].
  split; [vm_compute; reflexivity|].
  exact (Hp ltac:(vm_compute; reflexivity)).
Qed.

(** C10: a caption whose lower-cased form contains "beautiful" takes
    the lexicon branch and gets elegant and lovely into the set; the
    tags are pleasant and positive exactly when the lower-cased caption
    contains nice, good or lovely and no keyword of the lexicon. *)
Theorem beautiful_never_falls_back `{PyRuntime} (caption : string) :
  let cl := str_lower caption in
  let tags := extract_mood_tags caption in
  (str_in "beautiful" cl = true ->
     with_fallback cl (lexicon_tags cl) = lexicon_tags cl /\
     In "elegant" (lexicon_tags cl) /\ In "lovely" (lexicon_tags cl) /\
     (forall t, In t tags -> derived mood_mappings cl t)) /\
  (Permutation tags ["pleasant"; "positive"] <->
     any_in ["nice"; "good"; "lovely"] cl = true /\ any_in keywords cl = false).
Proof.
  intros cl tags. split.
  - intros Hb.
    assert (Hin : In ("beautiful", ["elegant"; "lovely"; "aesthetic"]) mood_mappings)
      by in_lexicon.
    assert (He : In "elegant" (lexicon_tags cl))
      by (apply (keyword_found _ _ _ Hin Hb); simpl; auto).
    assert (Hl : In "lovely" (lexicon_tags cl))
      by (apply (keyword_found _ _ _ Hin Hb); simpl; auto).
    repeat split; try assumption.
    + apply with_fallback_nonempty. intros Hnil. rewrite Hnil in He. contradiction.
    + intros t Ht. exact (keyword_tags caption t (beautiful_is_keyword _ Hb) Ht).
  - split.
    + intros Hp.
      assert (Ht : In "pleasant" tags)
        by (apply (Permutation_in _ (Permutation_sym Hp)); simpl; auto).
      destruct (any_in keywords cl) eqn:Hkw.
      * exfalso. exact (pleasant_not_derived cl (keyword_tags caption _ Hkw Ht)).
      * split; [|reflexivity].
        pose proof (no_keyword_tags caption Hkw) as Hq. fold cl tags in Hq.
        apply (Permutation_in _ Hq) in Ht. rewrite with_fallback_nil in Ht.
        destruct (any_in positive_words cl) eqn:Hpos.
        -- apply any_in_true in Hpos as (w & Hw & Hin).
           unfold positive_words in Hw. simpl in Hw.
           destruct Hw as [<-|Hw].
           ++ rewrite (beautiful_is_keyword _ Hin) in Hkw. discriminate.
           ++ apply any_in_true. exists w. split; [simpl; tauto | exact Hin].
        -- destruct (any_in posture_words cl); simpl in Ht;
             exfalso; intuition discriminate.
    + intros [Hpos Hkw].
      pose proof (no_keyword_tags caption Hkw) as Hq. fold cl tags in Hq.
      rewrite with_fallback_nil in Hq.
      assert (Hany : any_in positive_words cl = true).
      { apply any_in_true in Hpos as (w & Hw & Hin). apply any_in_true.
        exists w. split; [unfold positive_words; simpl in *; tauto | exact Hin]. }
      now rewrite Hany in Hq.
Qed.

(** A caption with "beautiful" and "nice": the lexicon branch is taken. *)
Lemma beautiful_never_falls_back_witness :
  In "elegant" (lexicon_tags "a beautiful, nice garden") /\
  In "lovely" (lexicon_tags "a beautiful, nice garden").
Proof.
  pose proof (proj1 (@beautiful_never_falls_back simple_runtime
                       "A Beautiful, nice garden") eq_refl) as (_ & He & Hl & _).
  exact (conj He Hl).
Defined.

End TagDeriverSpec.

(* ================================================================== *)
(** * The job processor: statements *)

Module JobProcessorSpec.
Import PySet PySetFacts TagDeriver TagDeriverFacts JobProcessor.

Ltac split_binds :=
  repeat match goal with
  | H : context [match ?x with _ => _ end] |- _ => destruct x eqn:?; cbv beta iota in H
  | H : Raise _ = Return _ |- _ => discriminate H
  | H : Return _ = Raise _ |- _ => discriminate H
  | H : Return _ = Return _ |- _ => injection H as H
  | H : Raise _ = Raise _ |- _ => injection H as H
  end.

Section Statements.
Context `{PyRuntime} `{Collaborators}.

Lemma extract_mood_tags_truthy caption : truthy (extract_mood_tags caption) = true.
Proof.
  pose proof (extract_length caption) as Hlen.
  pose proof (final_tags_not_nil (str_lower caption)) as Hne.
  destruct (final_tags (str_lower caption)); [contradiction|].
  destruct (extract_mood_tags caption); [simpl in Hlen; lia | reflexivity].
Qed.

(** What the [try] block returns when it returns. *)
Lemma body_returns job r :
  process_image_body job = Return r ->
  success r = true /\ error r = None /\
  exists request_id caption,
    subscript job "requestId" = Return request_id /\
    requestId r = request_id /\
    data r = Some (extract_mood_tags caption, caption).
Proof.
  unfold process_image_body, Py.bind. intros Hb.
  destruct (subscript job "requestId") as [request_id|] eqn:Hrid; [|discriminate].
  split_binds; subst r; cbn [success error requestId data];
    try match goal with
        | Hq : negb (truthy _) = true |- _ =>
            rewrite extract_mood_tags_truthy in Hq; discriminate Hq
        end;
    (split; [reflexivity|]; split; [reflexivity|];
     eexists; eexists; split; [reflexivity|]; split; reflexivity).
Qed.

Lemma key_error_text key : str_exn (KeyError key) <> "".
Proof. discriminate. Qed.

(** What the [try] block raises has a text when the collaborators'
    exceptions have one. *)
Lemma body_raises_text members e :
  raises_with_text ->
  process_image_body (JObj members) = Raise e -> str_exn e <> "".
Proof.
  intros (Hb64 & Hopen & Hconv & Hcap).
  unfold process_image_body, Py.bind, subscript. intros Hb.
  split_binds; subst;
    eauto using key_error_text.
Qed.

Lemma handler_dict members e :
  process_image_handler (JObj members) e =
    Return {| requestId := request_id_or_unknown members;
              success := false;
              data := None;
              error := Some (str_exn e);
              worker := WORKER_ID;
              processedAt := now_isoformat |}.
Proof. reflexivity. Qed.

Lemma process_image_dict members :
  process_image (JObj members) =
    match process_image_body (JObj members) with
    | Return r => Return r
    | Raise e =>
        Return {| requestId := request_id_or_unknown members;
                  success := false;
                  data := None;
                  error := Some (str_exn e);
                  worker := WORKER_ID;
                  processedAt := now_isoformat |}
    end.
Proof.
  unfold process_image, try_except.
  destruct (process_image_body (JObj members)); [reflexivity | apply handler_dict].
Qed.

End Statements.

(** The scenario of a job without [fileName]: the failure is reported
    under the job's request id, whatever the collaborators. *)
Example missing_file_name `{PyRuntime} `{Collaborators} :
  process_image (JObj [("requestId", JStr "r1"); ("imageData", JStr "not-valid-base64!")]) =
    Return {| requestId := JStr "r1";
              success := false;
              data := None;
              error := Some "'fileName'";
              worker := WORKER_ID;
              processedAt := now_isoformat |}.
Proof. reflexivity. Qed.

Example decodable_job :
  @process_image simple_runtime fake_collaborators
    (JObj [("requestId", JStr "r2"); ("fileName", JStr "b.png");
           ("imageData", JStr "PNG...")]) =
    Return {| requestId := JStr "r2";
              success := true;
              data := Some (["bright"; "cheerful"; "happy"; "vibrant"; "relaxing"; "tropical"],
                            "A sunny beach with bright colors");
              error := None;
              worker := "mood-worker-1";
              processedAt := "2024-01-01T00:00:00" |}.
Proof. vm_compute. reflexivity. Qed.

(** C1, as stated, fails: for a job that is not a dict the handler's
    own [job_data.get] raises, and [process_image] raises with it. *)
Lemma process_image_raises_on_non_dict :
  exists job, forall (R : PyRuntime) (C : Collaborators),
    @process_image R C job = Raise (AttributeError "'str' object has no attribute 'get'").
Proof. exists (JStr "not a job"). intros R C. reflexivity. Qed.

(** C1 (amended): on a dict, [process_image] returns and never raises.
    When a step of its [try] block raises, among them a missing field,
    base64 text that does not decode and bytes that are no image, the
    result has [success] false, the job's [requestId] or "unknown", and
    the exception's text as [error], non-empty when the collaborators'
    exceptions have a text. *)
Theorem process_image_dict_never_raises `{PyRuntime} `{Collaborators}
    (members : list (string * json)) :
  let job := JObj members in
  exists r, process_image job = Return r /\
    match process_image_body job with
    | Return r' => r = r' /\ success r = true
    | Raise e =>
        success r = false /\
        requestId r = request_id_or_unknown members /\
        error r = Some (str_exn e) /\
        (raises_with_text -> str_exn e <> "")
    end /\
    (forall key, In key ["requestId"; "fileName"; "imageData"] ->
       lookup key members = None -> success r = false) /\
    (forall d e, lookup "imageData" members = Some d ->
       b64decode d = Raise e -> success r = false) /\
    (forall d bytes e, lookup "imageData" members = Some d ->
       b64decode d = Return bytes -> image_open bytes = Raise e -> success r = false).
Proof.
  intros job. unfold job. rewrite process_image_dict.
  destruct (process_image_body (JObj members)) as [r|e] eqn:Hbody.
  - exists r. split; [reflexivity|].
    destruct (body_returns _ _ Hbody) as (Hs & _ & _).
    split; [auto|].
    unfold process_image_body, Py.bind, subscript in Hbody.
    repeat split.
    + intros key Hkey Hnone. simpl in Hkey.
      destruct Hkey as [<-|[<-|[<-|[]]]]; rewrite ?Hnone in Hbody;
        split_binds; congruence.
    + intros d e Hd He. rewrite Hd in Hbody. split_binds; congruence.
    + intros d bytes e Hd Hb He. rewrite Hd in Hbody. split_binds; congruence.
  - eexists. split; [reflexivity|]. simpl.
    repeat split; auto.
    intros Htext. exact (body_raises_text members e Htext Hbody).
Qed.

(** A job whose image data is not base64: the result reports the
    failure under the job's request id. *)
Lemma process_image_dict_never_raises_witness :
  exists r,
    @process_image simple_runtime fake_collaborators
      (JObj [("requestId", JStr "r1"); ("fileName", JStr "a.png");
             ("imageData", JStr "not-valid-base64!")]) = Return r /\
    success r = false /\ requestId r = JStr "r1" /\
    error r = Some "Incorrect padding".
Proof.
  destruct (@process_image_dict_never_raises simple_runtime fake_collaborators
              [("requestId", JStr "r1"); ("fileName", JStr "a.png");
               ("imageData", JStr "not-valid-base64!")])
    as (r & Hr & Hshape & _).
  exists r. split; [exact Hr|]. simpl in Hshape.
  destruct Hshape as (Hs & Hid & He & _). auto.
Defined.

(** C3: the tag list has between one and six elements and no
    duplicates; the test [if not tags] in [process_image] is never
    true, so a successful result carries the deriver's tags. *)
Theorem tags_between_one_and_six `{PyRuntime} `{Collaborators} :
  (forall caption,
     let tags := extract_mood_tags caption in
     1 <= length tags <= 6 /\ NoDup tags) /\
  (forall caption, negb (truthy (extract_mood_tags caption)) = false) /\
  (forall job r, process_image job = Return r -> success r = true ->
     exists caption, data r = Some (extract_mood_tags caption, caption)).
Proof.
  split; [|split].
  - intros caption tags. split; [|apply extract_NoDup].
    unfold tags. rewrite extract_length.
    pose proof (final_tags_not_nil (str_lower caption)) as Hne.
    destruct (final_tags (str_lower caption)); [contradiction|]. simpl length. lia.
  - intros caption. now rewrite extract_mood_tags_truthy.
  - intros job r Hr Hs. unfold process_image, try_except in Hr.
    destruct (process_image_body job) as [r'|e] eqn:Hbody.
    + injection Hr as <-.
      destruct (body_returns _ _ Hbody) as (_ & _ & rid & caption & _ & _ & Hd).
      now exists caption.
    + unfold process_image_handler, Py.bind in Hr.
      destruct (get job "requestId" (JStr "unknown")); [|discriminate].
      injection Hr as <-. discriminate Hs.
Qed.

End JobProcessorSpec.

(* ================================================================== *)
(** * The worker loop: statements *)

Module WorkerSpec.
Import JobProcessor Async Worker.

Section Statements.
Context `{PyRuntime} `{Collaborators}.

(** The inner [try], case by case. *)
Lemma handle_job_eq (t : turn) (job_data : string) :
  handle_job t job_data =
    match json_loads job_data with
    | Raise e =>
        ([Log (if is_JSONDecodeError e then LogInvalidJob e else LogJobError e)], Ok Next)
    | Return job =>
        match subscript job "requestId" with
        | Raise e =>
            ([Log (if is_JSONDecodeError e then LogInvalidJob e else LogJobError e)],
             Ok Next)
        | Return request_id =>
            match process_image job with
            | Raise e =>
                ([Log (LogReceived request_id);
                  Log (if is_JSONDecodeError e then LogInvalidJob e else LogJobError e)],
                 Ok Next)
            | Return result =>
                match publish_reply t with
                | Ok _ =>
                    ([Log (LogReceived request_id); Publish RESULT_CHANNEL result;
                      Log (LogPublished (requestId result))], Ok Next)
                | Exc e =>
                    ([Log (LogReceived request_id); Publish RESULT_CHANNEL result;
                      Log (if is_JSONDecodeError e then LogInvalidJob e else LogJobError e)],
                     Ok Next)
                | Cancel =>
                    ([Log (LogReceived request_id); Publish RESULT_CHANNEL result], Cancel)
                end
            end
        end
    end.
Proof.
  unfold handle_job, publish.
  destruct (json_loads job_data) as [job|e]; simpl.
  2: destruct (is_JSONDecodeError e); reflexivity.
  destruct (subscript job "requestId") as [request_id|e]; simpl.
  2: destruct (is_JSONDecodeError e); reflexivity.
  destruct (process_image job) as [result|e]; simpl.
  2: destruct (is_JSONDecodeError e); reflexivity.
  destruct (publish_reply t) as [[]|e|]; simpl; try reflexivity.
  destruct (is_JSONDecodeError e); reflexivity.
Qed.

(** The inner [try] lets nothing but a cancellation of [publish] out. *)
Lemma handle_job_result (t : turn) (job_data : string) :
  snd (handle_job t job_data) = Ok Next \/
  (snd (handle_job t job_data) = Cancel /\ publish_reply t = Cancel).
Proof.
  rewrite handle_job_eq.
  destruct (json_loads job_data) as [job|e]; [|now left].
  destruct (subscript job "requestId"); [|now left].
  destruct (process_image job); [|now left].
  destruct (publish_reply t) as [[]|e|]; auto.
Qed.

(** The publish calls of a turn in which [job_data] is popped. *)
Lemma handle_job_publishes (t : turn) (job_data : string) :
  publishes (fst (handle_job t job_data)) =
    match json_loads job_data with
    | Raise _ => []
    | Return job =>
        match subscript job "requestId", process_image job with
        | Return _, Return result => [(RESULT_CHANNEL, result)]
        | _, _ => []
        end
    end.
Proof.
  rewrite handle_job_eq.
  destruct (json_loads job_data) as [job|e]; [|reflexivity].
  destruct (subscript job "requestId"); [|reflexivity].
  destruct (process_image job); [|reflexivity].
  destruct (publish_reply t) as [[]|e|]; reflexivity.
Qed.

Lemma iteration_popped (t : turn) (queue_name job_data : string) :
  brpop_reply t = Ok (Some (queue_name, job_data)) ->
  iteration t =
    match handle_job t job_data with
    | (tr, Ok c) => (tr, Ok c)
    | (tr, Exc e) =>
        (tr ++ [Log (LogWorkerError e); Sleep 5],
         if sleep_cancelled t then Cancel else Ok Next)
    | (tr, Cancel) => (tr ++ [Log LogCancelled], Ok Break)
    end.
Proof.
  intros Hpop. unfold iteration, sleep. rewrite Hpop. simpl.
  destruct (handle_job t job_data) as [tr [c|e|]]; simpl.
  - reflexivity.
  - destruct (sleep_cancelled t); reflexivity.
  - reflexivity.
Qed.

Lemma iteration_pop_fails (t : turn) (e : exn) :
  brpop_reply t = Exc e ->
  iteration t =
    ([Log (LogWorkerError e); Sleep 5], if sleep_cancelled t then Cancel else Ok Next).
Proof.
  intros Hpop. unfold iteration, sleep. rewrite Hpop. simpl.
  destruct (sleep_cancelled t); reflexivity.
Qed.

(** How a turn can end, and what was observed when it does not go on
    to the next turn. *)
Lemma iteration_result (t : turn) :
  snd (iteration t) = Ok Next \/
  (snd (iteration t) = Ok Break /\ (brpop_reply t = Cancel \/ publish_reply t = Cancel)) \/
  (snd (iteration t) = Cancel /\ exists e, brpop_reply t = Exc e /\ sleep_cancelled t = true).
Proof.
  destruct (brpop_reply t) as [[[queue_name job_data]|]|e|] eqn:Hpop.
  - rewrite (iteration_popped t _ _ Hpop).
    destruct (handle_job_result t job_data) as [Hn|[Hc Hp]];
      destruct (handle_job t job_data) as [tr r]; simpl in *; subst r; auto.
  - left. unfold iteration. rewrite Hpop. reflexivity.
  - rewrite (iteration_pop_fails t e Hpop).
    destruct (sleep_cancelled t) eqn:Hs; simpl; eauto 6.
  - right. left. unfold iteration. rewrite Hpop. simpl. auto.
Qed.


Lemma while_true_cons (t : turn) (rest : list turn) :
  snd (while_true (t :: rest)) =
    match snd (iteration t) with
    | Ok Next => snd (while_true rest)
    | Ok Break => Some (Ok tt)
    | Exc e => Some (Exc e)
    | Cancel => Some Cancel
    end.
Proof.
  simpl. destruct (iteration t) as [tr [[|]|e|]]; try reflexivity.
  simpl. destruct (while_true rest). reflexivity.
Qed.

Lemma queue_worker_result (turns : list turn) :
  snd (queue_worker turns) = snd (while_true turns).
Proof. unfold queue_worker. destruct (while_true turns). reflexivity. Qed.

Lemma publishes_app (tr tr' : list event) :
  publishes (tr ++ tr') = publishes tr ++ publishes tr'.
Proof. unfold publishes. apply flat_map_app. Qed.

Lemma iteration_publishes (t : turn) (queue_name job_data : string) :
  brpop_reply t = Ok (Some (queue_name, job_data)) ->
  publishes (fst (iteration t)) = publishes (fst (handle_job t job_data)).
Proof.
  intros Hpop. rewrite (iteration_popped t _ _ Hpop).
  destruct (handle_job_result t job_data) as [Hn|[Hc _]];
    destruct (handle_job t job_data) as [tr r]; simpl in *; subst r; simpl;
    [reflexivity | rewrite publishes_app; apply app_nil_r].
Qed.

(** A payload that does not parse: nothing is published and the loop
    goes on. *)
Lemma unparsable_payload_dropped (t : turn) (queue_name job_data : string) (e : exn) :
  brpop_reply t = Ok (Some (queue_name, job_data)) ->
  json_loads job_data = Raise e ->
  publishes (fst (iteration t)) = [] /\ snd (iteration t) = Ok Next.
Proof.
  intros Hpop Hparse. split.
  - rewrite (iteration_publishes t _ _ Hpop), handle_job_publishes, Hparse. reflexivity.
  - rewrite (iteration_popped t _ _ Hpop), handle_job_eq, Hparse. reflexivity.
Qed.

(** A payload that parses to an object with [requestId]: the result of
    [process_image], a success or a failure, is published once. *)
Lemma attributed_job_published_once (t : turn) (queue_name job_data : string)
    (members : list (string * json)) (request_id : json) :
  brpop_reply t = Ok (Some (queue_name, job_data)) ->
  json_loads job_data = Return (JObj members) ->
  lookup "requestId" members = Some request_id ->
  exists r, process_image (JObj members) = Return r /\
            requestId r = request_id /\
            publishes (fst (iteration t)) = [(RESULT_CHANNEL, r)].
Proof.
  intros Hpop Hparse Hid.
  rewrite (iteration_publishes t _ _ Hpop), handle_job_publishes, Hparse.
  unfold subscript. rewrite Hid.
  rewrite JobProcessorSpec.process_image_dict.
  destruct (process_image_body (JObj members)) as [r|e] eqn:Hbody.
  - exists r. split; [reflexivity|]. split; [|reflexivity].
    destruct (JobProcessorSpec.body_returns _ _ Hbody)
      as (_ & _ & rid & caption & Hsub & Hr & _).
    unfold subscript in Hsub. rewrite Hid in Hsub. congruence.
  - eexists. split; [reflexivity|]. split; [|reflexivity].
    unfold request_id_or_unknown. simpl. now rewrite Hid.
Qed.

End Statements.

(** C2 (the code at the failing input): a payload that parses to an
    object without [requestId] is dropped at the log line before
    [process_image]; the turn publishes nothing and the loop goes on. *)
Theorem job_without_request_id_not_published `{PyRuntime} `{Collaborators}
    (t : turn) (queue_name : string) :
  json_loads "{}" = Return (JObj []) ->
  brpop_reply t = Ok (Some (queue_name, "{}")) ->
  iteration t = ([Log (LogJobError (KeyError "requestId"))], Ok Next) /\
  publishes (fst (iteration t)) = [].
Proof.
  intros Hparse Hpop.
  assert (Hit : iteration t = ([Log (LogJobError (KeyError "requestId"))], Ok Next)).
  { rewrite (iteration_popped t _ _ Hpop), handle_job_eq, Hparse. reflexivity. }
  rewrite Hit. split; reflexivity.
Qed.

Lemma job_without_request_id_not_published_witness :
  @iteration simple_runtime fake_collaborators pops_empty_object =
    ([Log (LogJobError (KeyError "requestId"))], Ok Next) /\
  publishes (fst (@iteration simple_runtime fake_collaborators pops_empty_object)) = [].
Proof.
  exact (@job_without_request_id_not_published simple_runtime fake_collaborators
           pops_empty_object "mood-analysis-queue" eq_refl eq_refl).
Defined.




End WorkerSpec.

(* ================================================================== *)
(** * Startup: statements *)

Module StartupSpec.
Import Async Startup.

(** C9: when [load_model] fails, or the client cannot be built, or the
    ping does not succeed, [startup_event] creates no worker task and
    leaves [worker_task] as it was; it returns unless it is itself
    cancelled in the ping.  The task is created exactly when the model
    loads, the client is built and the ping succeeds. *)
Theorem worker_started_iff_startup_succeeds (b : boot) (g : globals) :
  let g' := fst (startup_event b g) in
  let tr := fst (snd (startup_event b g)) in
  let r := snd (snd (startup_event b g)) in
  (snd (load_model b g) = false ->
     r = Ok tt /\ creates_worker tr = false /\ worker_task g' = worker_task g) /\
  (forall e, ping_reply b = Exc e ->
     r = Ok tt /\ creates_worker tr = false /\ worker_task g' = worker_task g) /\
  (creates_worker tr = true <->
     snd (load_model b g) = true /\
     (exists client, redis_from_url b = Return client) /\
     ping_reply b = Ok tt) /\
  (creates_worker tr = true -> worker_task g' = Some "queue_worker") /\
  (creates_worker tr = false -> worker_task g' = worker_task g).
Proof.
  unfold startup_event.
  assert (Hload : worker_task (fst (load_model b g)) = worker_task g).
  { unfold load_model.
    destruct (processor_from_pretrained b model_name); [|reflexivity].
    destruct (model_from_pretrained b model_name); reflexivity. }
  destruct (load_model b g) as [g1 [|]]; simpl in Hload |- *.
  - destruct (redis_from_url b) as [client|e0]; simpl.
    + destruct (ping_reply b) as [[]|e1|]; simpl;
        repeat split; try discriminate; try congruence; eauto;
        intros (_ & _ & Hp); discriminate.
    + repeat split; try discriminate; try congruence.
      intros (_ & (client & Hc) & _). discriminate.
  - repeat split; try discriminate; try congruence.
    intros (Hl & _). discriminate.
Qed.

(** However the cancelled worker ends, by [break] or by the
    cancellation exception, [shutdown_event] goes on to close the
    client. *)
Lemma shutdown_absorbs_cancellation (g : globals) (worker_end : res unit) :
  worker_end = Ok tt \/ worker_end = Cancel ->
  shutdown_event g worker_end (Ok tt) = ([Log LogShutdown], Ok tt).
Proof.
  unfold shutdown_event.
  intros [-> | ->]; destruct (worker_task g), (redis_client g); reflexivity.
Qed.

Lemma worker_started_iff_startup_succeeds_witness :
  creates_worker (fst (snd (startup_event healthy_boot initial_globals))) = true /\
  worker_task (fst (startup_event healthy_boot initial_globals)) = Some "queue_worker".
Proof.
  destruct (worker_started_iff_startup_succeeds healthy_boot initial_globals)
    as (_ & _ & Hiff & Hset & _).
  assert (Hc : creates_worker
                 (fst (snd (startup_event healthy_boot initial_globals))) = true).
  { apply Hiff. split; [reflexivity|]. split; [|reflexivity].
    exists "redis://localhost:6379". reflexivity. }
  exact (conj Hc (Hset Hc)).
Defined.

End StartupSpec.

(* ================================================================== *)
(** * The tag deriver: further properties *)

Module TagDeriverLaws.
Import PySet PySetFacts PyStrFacts TagDeriver TagDeriverFacts TagDeriverSpec.

(** *** Lower-casing of ASCII text *)

Lemma ascii_lower_idem (c : ascii) : ascii_lower (ascii_lower c) = ascii_lower c.
Proof. destruct c as [[] [] [] [] [] [] [] []]; reflexivity. Qed.

Lemma ascii_lower_below_128 (c : ascii) :
  (nat_of_ascii c <? 128)%nat = true -> (nat_of_ascii (ascii_lower c) <? 128)%nat = true.
Proof. destruct c as [[] [] [] [] [] [] [] []]; intros Hc; try exact Hc; reflexivity. Qed.

Lemma lower_ascii_idem (s : string) : lower_ascii (lower_ascii s) = lower_ascii s.
Proof.
  induction s as [|c s IH]; simpl; [reflexivity|].
  now rewrite ascii_lower_idem, IH.
Qed.

Lemma is_ascii_lower (s : string) : is_ascii s = true -> is_ascii (lower_ascii s) = true.
Proof.
  induction s as [|c s IH]; simpl; [reflexivity|].
  intros Hs. apply andb_true_iff in Hs as [Hc Hs].
  apply andb_true_iff. split; [now apply ascii_lower_below_128 | now apply IH].
Qed.

(** *** Containment composes *)

Lemma string_app_assoc (a b c : string) : ((a ++ b) ++ c = a ++ (b ++ c))%string.
Proof. induction a as [|x a IH]; simpl; [reflexivity | now rewrite IH]. Qed.

Lemma str_in_trans (a b c : string) :
  str_in a b = true -> str_in b c = true -> str_in a c = true.
Proof.
  intros Hab Hbc.
  apply str_in_spec in Hab as (p1 & q1 & ->).
  apply str_in_spec in Hbc as (p2 & q2 & ->).
  apply str_in_spec. exists (p2 ++ p1)%string, (q1 ++ q2)%string.
  now rewrite !string_app_assoc.
Qed.

Lemma derived_mono (m : list (string * list string)) (cl1 cl2 t : string) :
  str_in cl1 cl2 = true -> derived m cl1 t -> derived m cl2 t.
Proof.
  intros Hsub (kw & moods & Hin & Hkw & Ht).
  exists kw, moods. eauto using str_in_trans.
Qed.

(** *** The size of the set gathered by the loop *)

Lemma add_length (x : string) (s : pyset) : length (add x s) <= S (length s).
Proof.
  unfold add. destruct (mem x s); [lia|]. rewrite length_app. simpl. lia.
Qed.

Lemma update_length (xs : list string) (s : pyset) :
  length (update s xs) <= length s + length xs.
Proof.
  unfold update. revert s. induction xs as [|x xs IH]; intros s; simpl; [lia|].
  specialize (IH (add x s)). pose proof (add_length x s). lia.
Qed.

Lemma scan_length (m : list (string * list string)) (cl : string) (tags : pyset) :
  length (scan m cl tags) <=
    length tags + 2 * length (filter (fun item => str_in (fst item) cl) m).
Proof.
  revert tags. induction m as [|[kw moods] m IH]; intros tags.
  - simpl. lia.
  - rewrite scan_cons. specialize (IH (scan_step cl tags (kw, moods))).
    unfold scan_step in *. cbn [filter fst].
    destruct (str_in kw cl).
    + pose proof (update_length (firstn 2 moods) tags) as Hu.
      pose proof (firstn_le_length 2 moods) as Hf.
      rewrite length_firstn in Hu. cbn [length]. lia.
    + lia.
Qed.

Lemma scan_length_from_empty (m : list (string * list string)) (cl : string) :
  length (scan m cl []) <= 2 * length (filter (fun item => str_in (fst item) cl) m).
Proof. exact (scan_length m cl []). Qed.

Lemma lexicon_tags_length (cl : string) :
  length (lexicon_tags cl) <= 2 * length (found_entries cl).
Proof. unfold lexicon_tags, found_entries. apply scan_length_from_empty. Qed.

(** A tag that no entry of the lexicon has among its first two moods. *)
Definition never_derived (t : string) : bool :=
  forallb (fun item => negb (mem t (firstn 2 (snd item)))) mood_mappings.

Lemma never_derived_sound (t cl : string) :
  never_derived t = true -> ~ derived mood_mappings cl t.
Proof.
  intros Hnd (kw & moods & Hin & _ & Hm).
  pose proof (proj1 (forallb_forall _ _) Hnd _ Hin) as Hneg. cbn [snd] in Hneg.
  apply mem_In in Hm. rewrite Hm in Hneg. discriminate.
Qed.

Section Laws.
Context `{PyRuntime}.

(** With a keyword found and at most six moods gathered, the tags are
    the gathered set. *)
Lemma tags_are_lexicon_tags caption :
  any_in keywords (str_lower caption) = true ->
  length (lexicon_tags (str_lower caption)) <= 6 ->
  Permutation (extract_mood_tags caption) (lexicon_tags (str_lower caption)).
Proof.
  intros Hkw Hlen. rewrite <- (final_tags_keyword _ Hkw).
  apply extract_all. now rewrite (final_tags_keyword _ Hkw).
Qed.

Lemma found_keyword kw moods cl :
  In (kw, moods) mood_mappings -> str_in kw cl = true -> any_in keywords cl = true.
Proof.
  intros Hin Hkw. apply any_in_true. exists kw. split; [|exact Hkw].
  unfold keywords. apply in_map_iff. now exists (kw, moods).
Qed.

(** A tag of a fallback set that the lexicon cannot contribute is
    returned exactly when its tier is taken. *)
Lemma fallback_tag_iff caption t :
  never_derived t = true ->
  (In t (extract_mood_tags caption) <->
   any_in keywords (str_lower caption) = false /\
   In t (with_fallback (str_lower caption) [])).
Proof.
  intros Hnd. split.
  - intros Ht. destruct (any_in keywords (str_lower caption)) eqn:Hkw.
    + exfalso. exact (never_derived_sound t _ Hnd (keyword_tags caption t Hkw Ht)).
    + split; [reflexivity|].
      exact (Permutation_in _ (no_keyword_tags caption Hkw) Ht).
  - intros [Hkw Ht].
    exact (Permutation_in _ (Permutation_sym (no_keyword_tags caption Hkw)) Ht).
Qed.

End Laws.

(** X1: matching ignores ASCII case.  An ASCII caption gets the tags of
    its lower-cased form, and two ASCII captions that differ only in
    case get the same list. *)
Theorem tags_ignore_ascii_case `{PyRuntime} (caption : string) :
  is_ascii caption = true ->
  extract_mood_tags (lower_ascii caption) = extract_mood_tags caption /\
  (forall other, is_ascii other = true -> lower_ascii other = lower_ascii caption ->
     extract_mood_tags other = extract_mood_tags caption).
Proof.
  intros Ha.
  assert (Hsame : forall other, is_ascii other = true ->
            lower_ascii other = lower_ascii caption ->
            extract_mood_tags other = extract_mood_tags caption).
  { intros other Ho Heq. unfold extract_mood_tags.
    now rewrite (str_lower_ascii other Ho), (str_lower_ascii caption Ha), Heq. }
  split; [|exact Hsame].
  apply Hsame; [now apply is_ascii_lower | apply lower_ascii_idem].
Qed.

Lemma tags_ignore_ascii_case_witness :
  @extract_mood_tags simple_runtime "a dark forest" =
  @extract_mood_tags simple_runtime "A DARK Forest".
Proof.
  exact (proj1 (@tags_ignore_ascii_case simple_runtime "A DARK Forest" eq_refl)).
Defined.

(** X2: when the keywords of at most three lexicon entries occur in the
    lower-cased caption, nothing is cut: both of the first two moods of
    every keyword found are returned, and every returned tag is such a
    mood. *)
Theorem few_keywords_keep_all_moods `{PyRuntime} (caption : string) :
  length (found_entries (str_lower caption)) <= 3 ->
  forall kw moods,
    In (kw, moods) mood_mappings -> str_in kw (str_lower caption) = true ->
    (forall m, In m (firstn 2 moods) -> In m (extract_mood_tags caption)) /\
    (forall t, In t (extract_mood_tags caption) ->
       derived mood_mappings (str_lower caption) t).
Proof.
  intros Hfew kw moods Hin Hkw.
  pose proof (found_keyword _ _ _ Hin Hkw) as Hany.
  pose proof (lexicon_tags_length (str_lower caption)) as Hlen.
  assert (Hp : Permutation (extract_mood_tags caption) (lexicon_tags (str_lower caption)))
    by (apply tags_are_lexicon_tags; [exact Hany | lia]).
  split.
  - intros m Hm. apply (Permutation_in _ (Permutation_sym Hp)).
    exact (keyword_found kw moods _ Hin Hkw m Hm).
  - intros t Ht. exact (keyword_tags caption t Hany Ht).
Qed.

Lemma few_keywords_keep_all_moods_witness :
  In "moody" (@extract_mood_tags simple_runtime "Dark clouds over the city") /\
  In "mysterious" (@extract_mood_tags simple_runtime "Dark clouds over the city").
Proof.
  destruct (@few_keywords_keep_all_moods simple_runtime "Dark clouds over the city")
    with (kw := "dark") (moods := ["moody"; "mysterious"; "dramatic"]) as [Hall _].
  - vm_compute. lia.
  - in_lexicon.
  - reflexivity.
  - split; apply Hall; simpl; auto.
Defined.

(** X3: the fallback tier can be read off the tags.  "neutral" is
    returned exactly when the lower-cased caption has no keyword, no
    positive word and no posture word; "relaxed" exactly when it has no
    keyword, no positive word, and a posture word. *)
Theorem fallback_tier_visible `{PyRuntime} (caption : string) :
  let cl := str_lower caption in
  let tags := extract_mood_tags caption in
  (In "neutral" tags <->
     any_in keywords cl = false /\ any_in positive_words cl = false /\
     any_in posture_words cl = false) /\
  (In "relaxed" tags <->
     any_in keywords cl = false /\ any_in positive_words cl = false /\
     any_in posture_words cl = true).
Proof.
  intros cl tags. unfold tags, cl. split.
  - rewrite (fallback_tag_iff caption "neutral") by (vm_compute; reflexivity).
    rewrite with_fallback_nil.
    destruct (any_in positive_words (str_lower caption)),
             (any_in posture_words (str_lower caption));
      simpl; intuition (discriminate || auto).
  - rewrite (fallback_tag_iff caption "relaxed") by (vm_compute; reflexivity).
    rewrite with_fallback_nil.
    destruct (any_in positive_words (str_lower caption)),
             (any_in posture_words (str_lower caption));
      simpl; intuition (discriminate || auto).
Qed.

(** X4: a caption that contains another one (lower-cased) has its
    tags, provided the contained caption has a keyword and the
    containing one gathers at most six moods. *)
Theorem contained_caption_tags `{PyRuntime} (inner outer : string) :
  str_in (str_lower inner) (str_lower outer) = true ->
  any_in keywords (str_lower inner) = true ->
  length (lexicon_tags (str_lower outer)) <= 6 ->
  incl (extract_mood_tags inner) (extract_mood_tags outer).
Proof.
  intros Hsub Hkw Hlen t Ht.
  pose proof (keyword_tags inner t Hkw Ht) as Hd.
  apply (derived_mono _ _ _ _ Hsub) in Hd.
  assert (Hany : any_in keywords (str_lower outer) = true).
  { destruct Hd as (kw & moods & Hin & Hk & _). exact (found_keyword _ _ _ Hin Hk). }
  apply (Permutation_in _ (Permutation_sym (tags_are_lexicon_tags outer Hany Hlen))).
  now apply lexicon_tags_In.
Qed.

Lemma contained_caption_tags_witness :
  incl (@extract_mood_tags simple_runtime "sunny beach")
       (@extract_mood_tags simple_runtime "A sunny beach with bright colors").
Proof.
  apply (@contained_caption_tags simple_runtime "sunny beach"
           "A sunny beach with bright colors").
  - reflexivity.
  - reflexivity.
  - vm_compute. lia.
Defined.

End TagDeriverLaws.

(* ================================================================== *)
(** * The job processor: further properties *)

Module JobProcessorLaws.
Import PySet TagDeriver TagDeriverFacts JobProcessor JobProcessorSpec.

Section Laws.
Context `{PyRuntime} `{Collaborators}.

(** The [try] block up to the decoding, when the three fields are
    there. *)
Lemma body_with_fields members request_id file_name image_data :
  lookup "requestId" members = Some request_id ->
  lookup "fileName" members = Some file_name ->
  lookup "imageData" members = Some image_data ->
  process_image_body (JObj members) =
    Py.bind (b64decode image_data) (fun image_bytes =>
    Py.bind (image_open image_bytes) (fun pil_image =>
    Py.bind (if String.eqb (image_mode pil_image) "RGB"
             then Return pil_image
             else image_convert pil_image "RGB") (fun pil_image =>
    Py.bind (generate_caption pil_image) (fun caption =>
      Return {| requestId := request_id;
                success := true;
                data := Some (extract_mood_tags caption, caption);
                error := None;
                worker := WORKER_ID;
                processedAt := now_isoformat |})))).
Proof.
  intros Hid Hname Hdata. unfold process_image_body, subscript.
  rewrite Hid, Hname, Hdata. cbn [Py.bind].
  destruct (b64decode image_data) as [image_bytes|]; [|reflexivity]. cbn [Py.bind].
  destruct (image_open image_bytes) as [pil_image|]; [|reflexivity]. cbn [Py.bind].
  destruct (if String.eqb (image_mode pil_image) "RGB"
            then Return pil_image else image_convert pil_image "RGB")
    as [rgb|]; [|reflexivity]. cbn [Py.bind].
  destruct (generate_caption rgb) as [caption|]; [|reflexivity]. cbn [Py.bind].
  now rewrite extract_mood_tags_truthy.
Qed.

Lemma request_id_present members request_id :
  lookup "requestId" members = Some request_id ->
  request_id_or_unknown members = request_id.
Proof. intros Hid. unfold request_id_or_unknown. now rewrite Hid. Qed.

(** A failed step of the [try] block, reported. *)
Lemma body_raise_reported members e :
  process_image_body (JObj members) = Raise e ->
  process_image (JObj members) =
    Return (failure_result (request_id_or_unknown members) (str_exn e)).
Proof. intros Hbody. now rewrite process_image_dict, Hbody. Qed.

End Laws.

(** X5: a job with its three fields whose image decodes, opens, is
    brought to RGB when it is not, and is captioned, gets a success
    result: the job's request id, the deriver's tags for the caption,
    the caption as generated, no error, and the worker's stamps. *)
Theorem well_formed_job_succeeds `{PyRuntime} `{Collaborators}
    (members : list (string * json)) (request_id file_name image_data : json)
    (image_bytes : string) (pil_image rgb_image : image) (caption : string) :
  lookup "requestId" members = Some request_id ->
  lookup "fileName" members = Some file_name ->
  lookup "imageData" members = Some image_data ->
  b64decode image_data = Return image_bytes ->
  image_open image_bytes = Return pil_image ->
  (if String.eqb (image_mode pil_image) "RGB"
   then Return pil_image else image_convert pil_image "RGB") = Return rgb_image ->
  generate_caption rgb_image = Return caption ->
  process_image (JObj members) =
    Return {| requestId := request_id;
              success := true;
              data := Some (extract_mood_tags caption, caption);
              error := None;
              worker := WORKER_ID;
              processedAt := now_isoformat |}.
Proof.
  intros Hid Hname Hdata Hdec Hopen Hrgb Hcap.
  rewrite process_image_dict, (body_with_fields _ _ _ _ Hid Hname Hdata).
  rewrite Hdec. cbn [Py.bind]. rewrite Hopen. cbn [Py.bind].
  rewrite Hrgb. cbn [Py.bind]. rewrite Hcap. reflexivity.
Qed.

Lemma well_formed_job_succeeds_witness :
  @process_image simple_runtime fake_collaborators
    (JObj [("requestId", JStr "r2"); ("fileName", JStr "b.png");
           ("imageData", JStr "PNG...")]) =
    Return {| requestId := JStr "r2";
              success := true;
              data := Some (@extract_mood_tags simple_runtime
                              "A sunny beach with bright colors",
                            "A sunny beach with bright colors");
              error := None;
              worker := "mood-worker-1";
              processedAt := "2024-01-01T00:00:00" |}.
Proof.
  exact (@well_formed_job_succeeds simple_runtime fake_collaborators
           [("requestId", JStr "r2"); ("fileName", JStr "b.png");
            ("imageData", JStr "PNG...")]
           (JStr "r2") (JStr "b.png") (JStr "PNG...") "PNG..." "PNG..." "PNG..."
           "A sunny beach with bright colors"
           eq_refl eq_refl eq_refl eq_refl eq_refl eq_refl eq_refl).
Defined.

(** X6: the fields are read in the order requestId, fileName,
    imageData, before anything is decoded; the first one missing is
    the error reported, as the repr of its name.  Without requestId the
    result goes out under "unknown". *)
Theorem first_missing_field_reported `{PyRuntime} `{Collaborators}
    (members : list (string * json)) :
  (lookup "requestId" members = None ->
     process_image (JObj members) =
       Return (failure_result (JStr "unknown") "'requestId'")) /\
  (forall request_id,
     lookup "requestId" members = Some request_id ->
     lookup "fileName" members = None ->
     process_image (JObj members) =
       Return (failure_result request_id "'fileName'")) /\
  (forall request_id file_name,
     lookup "requestId" members = Some request_id ->
     lookup "fileName" members = Some file_name ->
     lookup "imageData" members = None ->
     process_image (JObj members) =
       Return (failure_result request_id "'imageData'")).
Proof.
  split; [|split].
  - intros Hid. rewrite (body_raise_reported members (KeyError "requestId")).
    + unfold request_id_or_unknown. now rewrite Hid.
    + unfold process_image_body, subscript. now rewrite Hid.
  - intros request_id Hid Hname.
    rewrite (body_raise_reported members (KeyError "fileName")).
    + now rewrite (request_id_present _ _ Hid).
    + unfold process_image_body, subscript. now rewrite Hid, Hname.
  - intros request_id file_name Hid Hname Hdata.
    rewrite (body_raise_reported members (KeyError "imageData")).
    + now rewrite (request_id_present _ _ Hid).
    + unfold process_image_body, subscript. now rewrite Hid, Hname, Hdata.
Qed.

Lemma first_missing_field_reported_witness :
  @process_image simple_runtime fake_collaborators
    (JObj [("imageData", JStr "PNG..."); ("fileName", JStr "b.png")]) =
    Return (@failure_result fake_collaborators (JStr "unknown") "'requestId'").
Proof.
  exact (proj1 (@first_missing_field_reported simple_runtime fake_collaborators
                  [("imageData", JStr "PNG..."); ("fileName", JStr "b.png")])
           eq_refl).
Defined.





(** X9: with the three fields present, the exception of the first
    collaborator that fails (decoding, opening, conversion to RGB,
    captioning) is reported with its text under the job's request id. *)
Theorem collaborator_failure_reported `{PyRuntime} `{Collaborators}
    (members : list (string * json)) (request_id file_name image_data : json) :
  lookup "requestId" members = Some request_id ->
  lookup "fileName" members = Some file_name ->
  lookup "imageData" members = Some image_data ->
  (forall e, b64decode image_data = Raise e ->
     process_image (JObj members) = Return (failure_result request_id (str_exn e))) /\
  (forall image_bytes e,
     b64decode image_data = Return image_bytes ->
     image_open image_bytes = Raise e ->
     process_image (JObj members) = Return (failure_result request_id (str_exn e))) /\
  (forall image_bytes pil_image e,
     b64decode image_data = Return image_bytes ->
     image_open image_bytes = Return pil_image ->
     String.eqb (image_mode pil_image) "RGB" = false ->
     image_convert pil_image "RGB" = Raise e ->
     process_image (JObj members) = Return (failure_result request_id (str_exn e))) /\
  (forall image_bytes pil_image rgb_image e,
     b64decode image_data = Return image_bytes ->
     image_open image_bytes = Return pil_image ->
     (if String.eqb (image_mode pil_image) "RGB"
      then Return pil_image else image_convert pil_image "RGB") = Return rgb_image ->
     generate_caption rgb_image = Raise e ->
     process_image (JObj members) = Return (failure_result request_id (str_exn e))).
Proof.
  intros Hid Hname Hdata.
  pose proof (body_with_fields _ _ _ _ Hid Hname Hdata) as Hbody.
  assert (Hrep : forall e, process_image_body (JObj members) = Raise e ->
            process_image (JObj members) =
              Return (failure_result request_id (str_exn e))).
  { intros e He. rewrite (body_raise_reported _ _ He).
    now rewrite (request_id_present _ _ Hid). }
  repeat split.
  - intros e Hdec. apply Hrep. rewrite Hbody, Hdec. reflexivity.
  - intros image_bytes e Hdec Hopen. apply Hrep.
    rewrite Hbody, Hdec. cbn [Py.bind]. rewrite Hopen. reflexivity.
  - intros image_bytes pil_image e Hdec Hopen Hmode Hconv. apply Hrep.
    rewrite Hbody, Hdec. cbn [Py.bind]. rewrite Hopen. cbn [Py.bind].
    rewrite Hmode, Hconv. reflexivity.
  - intros image_bytes pil_image rgb_image e Hdec Hopen Hrgb Hcap. apply Hrep.
    rewrite Hbody, Hdec. cbn [Py.bind]. rewrite Hopen. cbn [Py.bind].
    rewrite Hrgb. cbn [Py.bind]. rewrite Hcap. reflexivity.
Qed.

Lemma collaborator_failure_reported_witness :
  @process_image simple_runtime fake_collaborators
    (JObj [("requestId", JStr "r3"); ("fileName", JStr "c.txt");
           ("imageData", JStr "plain text")]) =
    Return (@failure_result fake_collaborators (JStr "r3") "cannot identify image file").
Proof.
  destruct (@collaborator_failure_reported simple_runtime fake_collaborators
              [("requestId", JStr "r3"); ("fileName", JStr "c.txt");
               ("imageData", JStr "plain text")]
              (JStr "r3") (JStr "c.txt") (JStr "plain text") eq_refl eq_refl eq_refl)
    as (_ & Hopen & _).
  exact (Hopen "plain text" (Error "cannot identify image file") eq_refl eq_refl).
Defined.

End JobProcessorLaws.

(* ================================================================== *)
(** * The worker loop: further properties *)

Module WorkerLaws.
Import JobProcessor JobProcessorSpec Async Worker WorkerSpec.

Section Laws.
Context `{PyRuntime} `{Collaborators}.

Lemma iteration_timeout (t : turn) :
  brpop_reply t = Ok None -> iteration t = ([], Ok Next).
Proof. intros Hpop. unfold iteration. now rewrite Hpop. Qed.

Lemma iteration_pop_cancelled (t : turn) :
  brpop_reply t = Cancel -> iteration t = ([Log LogCancelled], Ok Break).
Proof. intros Hpop. unfold iteration. now rewrite Hpop. Qed.

(** The inner [try] never sleeps. *)
Lemma handle_job_no_sleep (t : turn) (job_data : string) (n : nat) :
  ~ In (Sleep n) (fst (handle_job t job_data)).
Proof.
  rewrite handle_job_eq.
  destruct (json_loads job_data) as [job|e]; [|simpl; intuition discriminate].
  destruct (subscript job "requestId"); [|simpl; intuition discriminate].
  destruct (process_image job); [|simpl; intuition discriminate].
  destruct (publish_reply t) as [[]|e|]; simpl; intuition discriminate.
Qed.

(** The trace of a turn in which a payload is popped is that of the
    inner [try], followed by the cancellation log line if [publish]
    was cancelled. *)
Lemma iteration_popped_trace (t : turn) (queue_name job_data : string) :
  brpop_reply t = Ok (Some (queue_name, job_data)) ->
  fst (iteration t) = fst (handle_job t job_data) \/
  fst (iteration t) = fst (handle_job t job_data) ++ [Log LogCancelled].
Proof.
  intros Hpop. rewrite (iteration_popped t _ _ Hpop).
  destruct (handle_job_result t job_data) as [Hn|[Hc _]];
    destruct (handle_job t job_data) as [tr r]; simpl in *; subst r; auto.
Qed.

(** A turn publishes at most once, on the result channel. *)
Lemma iteration_publishes_at_most_once (t : turn) :
  publishes (fst (iteration t)) = [] \/
  exists r, publishes (fst (iteration t)) = [(RESULT_CHANNEL, r)].
Proof.
  destruct (brpop_reply t) as [[[queue_name job_data]|]|e|] eqn:Hpop.
  - rewrite (iteration_publishes t _ _ Hpop), handle_job_publishes.
    destruct (json_loads job_data) as [job|]; [|now left].
    destruct (subscript job "requestId"); [|now left].
    destruct (process_image job) as [r|]; [right; now exists r | now left].
  - left. now rewrite (iteration_timeout t Hpop).
  - left. now rewrite (iteration_pop_fails t e Hpop).
  - left. now rewrite (iteration_pop_cancelled t Hpop).
Qed.

(** The trace of the loop: the first turn's, then the rest's if the
    loop goes on. *)
Lemma while_true_trace (t : turn) (rest : list turn) :
  fst (while_true (t :: rest)) = fst (iteration t) ++ fst (while_true rest) \/
  fst (while_true (t :: rest)) = fst (iteration t).
Proof.
  simpl. destruct (iteration t) as [tr [[|]|e|]]; simpl; auto.
  destruct (while_true rest). simpl. auto.
Qed.

(** The loop ends by [break] or by the cancellation exception. *)
Lemma while_true_exit (turns : list turn) (r : res unit) :
  snd (while_true turns) = Some r -> r = Ok tt \/ r = Cancel.
Proof.
  induction turns as [|t rest IH]; [discriminate|].
  rewrite while_true_cons.
  destruct (iteration_result t) as [Hn|[[Hb _]|[Hc _]]];
    rewrite ?Hn, ?Hb, ?Hc; [exact IH | |]; intros Hr; injection Hr as <-; auto.
Qed.



End Laws.

(** X10: a turn in which a payload is popped publishes once or not at
    all.  It publishes exactly when the payload parses to an object
    with a [requestId] member, and what it publishes then, on the
    result channel, is the result of [process_image] for that object,
    a success or a failure, under the job's request id. *)
Theorem published_iff_attributed `{PyRuntime} `{Collaborators}
    (t : turn) (queue_name job_data : string) :
  brpop_reply t = Ok (Some (queue_name, job_data)) ->
  (publishes (fst (iteration t)) = [] \/
   exists r, publishes (fst (iteration t)) = [(RESULT_CHANNEL, r)]) /\
  ((exists r, publishes (fst (iteration t)) = [(RESULT_CHANNEL, r)]) <->
   (exists members request_id,
      json_loads job_data = Return (JObj members) /\
      lookup "requestId" members = Some request_id)) /\
  (forall members request_id,
     json_loads job_data = Return (JObj members) ->
     lookup "requestId" members = Some request_id ->
     exists r, process_image (JObj members) = Return r /\
               requestId r = request_id /\
               publishes (fst (iteration t)) = [(RESULT_CHANNEL, r)]).
Proof.
  intros Hpop. split; [apply iteration_publishes_at_most_once|]. split.
  - split.
    + intros [r Hr].
      rewrite (iteration_publishes t _ _ Hpop), handle_job_publishes in Hr.
      destruct (json_loads job_data) as [job|] eqn:Hparse; [|discriminate].
      destruct job as [| | | | |members]; try discriminate Hr.
      unfold subscript in Hr.
      destruct (lookup "requestId" members) as [request_id|] eqn:Hid; [|discriminate].
      now exists members, request_id.
    + intros (members & request_id & Hparse & Hid).
      destruct (attributed_job_published_once t _ _ _ _ Hpop Hparse Hid)
        as (r & _ & _ & Hr).
      now exists r.
  - intros members request_id Hparse Hid.
    exact (attributed_job_published_once t _ _ _ _ Hpop Hparse Hid).
Qed.

Lemma published_iff_attributed_witness :
  exists r,
    @process_image simple_runtime reading_collaborators
      (JObj [("requestId", JStr "r1")]) = Return r /\
    requestId r = JStr "r1" /\
    publishes (fst (@iteration simple_runtime reading_collaborators
                      pops_r1_publish_fails)) = [(RESULT_CHANNEL, r)].
Proof.
  destruct (@published_iff_attributed simple_runtime reading_collaborators
              pops_r1_publish_fails "mood-analysis-queue" r1_payload eq_refl)
    as (_ & _ & Hpub).
  exact (Hpub [("requestId", JStr "r1")] (JStr "r1") eq_refl eq_refl).
Defined.

(** X11: a turn sleeps exactly when [brpop] raises an exception, and
    then for 5; no failure inside the handling of a job (parsing,
    processing, publishing) makes the loop back off. *)
Theorem backoff_iff_pop_fails `{PyRuntime} `{Collaborators} (t : turn) (n : nat) :
  sleeps_for n (fst (iteration t)) <-> n = 5 /\ exists e, brpop_reply t = Exc e.
Proof.
  unfold sleeps_for.
  destruct (brpop_reply t) as [[[queue_name job_data]|]|e|] eqn:Hpop.
  - split; [|intros (_ & e & He); discriminate].
    intros Hin. exfalso.
    destruct (iteration_popped_trace t _ _ Hpop) as [Htr|Htr]; rewrite Htr in Hin.
    + exact (handle_job_no_sleep t job_data n Hin).
    + apply in_app_or in Hin as [Hin|[Hin|[]]]; [|discriminate].
      exact (handle_job_no_sleep t job_data n Hin).
  - rewrite (iteration_timeout t Hpop). simpl.
    split; [contradiction | intros (_ & e & He); discriminate].
  - rewrite (iteration_pop_fails t e Hpop). simpl. split.
    + intros [Hin|[Hin|[]]]; [discriminate|]. injection Hin as <-. eauto.
    + intros [-> _]. auto.
  - rewrite (iteration_pop_cancelled t Hpop). simpl.
    split; [intros [Hin|[]]; discriminate | intros (_ & e & He); discriminate].
Qed.

(** X12: publishing is tried once and not again.  When [publish]
    raises an exception for a job with a request id, the turn has made
    that one call, logs the error and goes on to the next turn. *)
Theorem publish_failure_not_retried `{PyRuntime} `{Collaborators}
    (t : turn) (queue_name job_data : string)
    (members : list (string * json)) (request_id : json) (e : exn) :
  brpop_reply t = Ok (Some (queue_name, job_data)) ->
  json_loads job_data = Return (JObj members) ->
  lookup "requestId" members = Some request_id ->
  publish_reply t = Exc e ->
  exists r, process_image (JObj members) = Return r /\
    iteration t =
      ([Log (LogReceived request_id); Publish RESULT_CHANNEL r;
        Log (if is_JSONDecodeError e then LogInvalidJob e else LogJobError e)],
       Ok Next).
Proof.
  intros Hpop Hparse Hid Hpub.
  rewrite (iteration_popped t _ _ Hpop), handle_job_eq, Hparse.
  unfold subscript. rewrite Hid, process_image_dict.
  destruct (process_image_body (JObj members)) as [r|e'];
    eexists; (split; [reflexivity|]); now rewrite Hpub.
Qed.

Lemma publish_failure_not_retried_witness :
  exists r,
    @process_image simple_runtime reading_collaborators
      (JObj [("requestId", JStr "r1")]) = Return r /\
    @iteration simple_runtime reading_collaborators pops_r1_publish_fails =
      ([Log (LogReceived (JStr "r1")); Publish RESULT_CHANNEL r;
        Log (LogJobError (Error "Connection reset by peer"))], Ok Next).
Proof.
  exact (@publish_failure_not_retried simple_runtime reading_collaborators
           pops_r1_publish_fails "mood-analysis-queue" r1_payload
           [("requestId", JStr "r1")] (JStr "r1") (Error "Connection reset by peer")
           eq_refl eq_refl eq_refl eq_refl).
Defined.



(** X14: over any number of turns the loop publishes at most once per
    turn, and only on the result channel. *)
Theorem publishes_bounded_by_turns `{PyRuntime} `{Collaborators} (turns : list turn) :
  length (publishes (fst (queue_worker turns))) <= length turns /\
  Forall (fun p => fst p = RESULT_CHANNEL) (publishes (fst (queue_worker turns))).
Proof.
  assert (Hloop : length (publishes (fst (while_true turns))) <= length turns /\
                  Forall (fun p => fst p = RESULT_CHANNEL)
                         (publishes (fst (while_true turns)))).
  { induction turns as [|t rest [IHlen IHch]]; [simpl; auto|].
    assert (Hone : length (publishes (fst (iteration t))) <= 1 /\
                   Forall (fun p => fst p = RESULT_CHANNEL)
                          (publishes (fst (iteration t)))).
    { destruct (iteration_publishes_at_most_once t) as [Hp|[r Hp]]; rewrite Hp.
      - simpl. auto.
      - simpl. split; [lia|]. repeat constructor. }
    destruct Hone as [Hlen Hch].
    destruct (while_true_trace t rest) as [Htr|Htr]; rewrite Htr.
    - rewrite publishes_app, length_app. split; [simpl; lia|].
      apply Forall_app. auto.
    - split; [simpl; lia | exact Hch]. }
  unfold queue_worker. destruct (while_true turns) as [tr r]. exact Hloop.
Qed.

(** X15: while the queue stays empty and every [brpop] times out, the
    loop does nothing but wait: it logs its start, publishes nothing,
    never sleeps, and is still running. *)
Theorem idle_queue_only_waits `{PyRuntime} `{Collaborators} (turns : list turn) :
  Forall (fun t => brpop_reply t = Ok None) turns ->
  queue_worker turns = ([Log LogStarting], None).
Proof.
  intros Hidle.
  assert (Hloop : while_true turns = ([], None)).
  { induction Hidle as [|t rest Ht _ IH]; [reflexivity|].
    simpl. now rewrite (iteration_timeout t Ht), IH. }
  unfold queue_worker. now rewrite Hloop.
Qed.

Lemma idle_queue_only_waits_witness :
  @queue_worker simple_runtime fake_collaborators [times_out; times_out; times_out] =
    ([Log LogStarting], None).
Proof.
  apply (@idle_queue_only_waits simple_runtime fake_collaborators).
  repeat constructor.
Defined.

(** X16: however the loop ends, [shutdown_event] gets through: it
    awaits the worker, absorbs the cancellation exception if the loop
    ended by it, and with a client that closes it logs the end of the
    shutdown and returns. *)
Theorem shutdown_after_worker_exit `{PyRuntime} `{Collaborators}
    (turns : list turn) (r : res unit) (g : Startup.globals) :
  snd (queue_worker turns) = Some r ->
  Startup.shutdown_event g r (Ok tt) = ([Log LogShutdown], Ok tt).
Proof.
  rewrite queue_worker_result. intros Hexit.
  unfold Startup.shutdown_event.
  destruct (while_true_exit turns r Hexit) as [-> | ->];
    destruct (Startup.worker_task g), (Startup.redis_client g); reflexivity.
Qed.

Lemma shutdown_after_worker_exit_witness :
  Startup.shutdown_event
    (fst (Startup.startup_event healthy_boot Startup.initial_globals))
    Cancel (Ok tt) = ([Log LogShutdown], Ok tt).
Proof.
  exact (@shutdown_after_worker_exit simple_runtime fake_collaborators
           [outage_then_cancel] Cancel
           (fst (Startup.startup_event healthy_boot Startup.initial_globals))
           eq_refl).
Defined.

End WorkerLaws.

(* ================================================================== *)
(** * Startup and health: further properties *)

Module LifecycleLaws.
Import Async Startup Health.

Section HealthLaws.
Context `{Collaborators}.
Variable QUEUE_NAME : string.

(** The report, case by case. *)
Lemma health_check_eq (g : globals) (ping : res unit) :
  health_check QUEUE_NAME g ping =
    let redis_status :=
      match redis_client g, ping with
      | None, _ => "disconnected"
      | Some _, Ok _ => "connected"
      | Some _, _ => "error"
      end in
    ([], Ok {| status := if is_not_none (model g) && String.eqb redis_status "connected"
                         then "healthy" else "unhealthy";
               service := "mood-tagger";
               worker := WORKER_ID;
               model_loaded := is_not_none (model g);
               redis := redis_status;
               queue := QUEUE_NAME |}).
Proof.
  unfold health_check.
  destruct (redis_client g); [destruct ping as [[]|e|]|]; reflexivity.
Qed.

End HealthLaws.

(** X17: starting from the initial globals, the globals after
    [startup_event] tell how far it got: a worker task is only there
    with a client, a client only with the model, and the model only
    with the processor. *)
Theorem startup_globals_chain (b : boot) :
  let g := fst (startup_event b initial_globals) in
  (is_not_none (worker_task g) = true -> is_not_none (redis_client g) = true) /\
  (is_not_none (redis_client g) = true -> is_not_none (model g) = true) /\
  (is_not_none (model g) = true -> is_not_none (processor g) = true).
Proof.
  unfold startup_event, load_model.
  destruct (processor_from_pretrained b model_name); [|simpl; auto].
  destruct (model_from_pretrained b model_name); [|simpl; repeat split; discriminate].
  simpl. destruct (redis_from_url b); [|simpl; repeat split; auto; discriminate].
  destruct (ping_reply b) as [[]|e|]; simpl; auto.
Qed.

(** X18: [health_check] always returns a report, whatever the ping does
    (its bare [except] takes a cancellation too).  The status is
    "healthy" exactly when the model is loaded, a client is there and
    the ping succeeds, and "unhealthy" otherwise; [redis] is
    "disconnected" without a client, "connected" after a ping that
    succeeds and "error" after one that does not. *)
Theorem health_check_report `{Collaborators} (QUEUE_NAME : string)
    (g : globals) (ping : res unit) :
  exists rep,
    health_check QUEUE_NAME g ping = ([], Ok rep) /\
    (status rep = "healthy" <->
       is_not_none (model g) = true /\ is_not_none (redis_client g) = true /\
       ping = Ok tt) /\
    (status rep = "healthy" \/ status rep = "unhealthy") /\
    model_loaded rep = is_not_none (model g) /\
    (redis rep = "disconnected" <-> redis_client g = None) /\
    (redis rep = "connected" <-> is_not_none (redis_client g) = true /\ ping = Ok tt) /\
    queue rep = QUEUE_NAME /\ worker rep = WORKER_ID.
Proof.
  rewrite health_check_eq. eexists. split; [reflexivity|].
  destruct (model g), (redis_client g), ping as [[]|e|]; simpl;
    repeat split; auto; try discriminate;
    try (intros (? & ? & ?); discriminate);
    try (intros (? & ?); discriminate).
Qed.

(** X19: what the health endpoint says after startup, from the initial
    globals.  With the worker started and a ping that succeeds it
    reports "healthy".  When [load_model] failed it reports
    "unhealthy" whatever the ping does.  When startup stopped at a
    failed ping, no worker runs, and yet a later ping that succeeds
    makes it report "healthy": the report does not look at
    [worker_task]. *)
Theorem health_after_startup `{Collaborators} (QUEUE_NAME : string) (b : boot) :
  let g := fst (startup_event b initial_globals) in
  (is_not_none (worker_task g) = true ->
     exists rep, health_check QUEUE_NAME g (Ok tt) = ([], Ok rep) /\
                 status rep = "healthy") /\
  (snd (load_model b initial_globals) = false ->
     forall ping, exists rep,
       health_check QUEUE_NAME g ping = ([], Ok rep) /\
       status rep = "unhealthy" /\ model_loaded rep = false) /\
  (forall client e,
     snd (load_model b initial_globals) = true ->
     redis_from_url b = Return client ->
     ping_reply b = Exc e ->
     worker_task g = None /\
     exists rep, health_check QUEUE_NAME g (Ok tt) = ([], Ok rep) /\
                 status rep = "healthy").
Proof.
  unfold startup_event, load_model.
  destruct (processor_from_pretrained b model_name) as [p|].
  2: { simpl. repeat split; try discriminate.
       intros _ ping. rewrite health_check_eq. eexists. split; [reflexivity|].
       simpl. auto. }
  destruct (model_from_pretrained b model_name) as [m|].
  2: { simpl. repeat split; try discriminate.
       intros _ ping. rewrite health_check_eq. eexists. split; [reflexivity|].
       simpl. auto. }
  simpl. destruct (redis_from_url b) as [client|].
  2: { simpl. repeat split; discriminate. }
  destruct (ping_reply b) as [[]|e|]; simpl; repeat split; try discriminate.
  - intros _. rewrite health_check_eq. eexists. split; reflexivity.
  - rewrite health_check_eq. eexists. split; reflexivity.
Qed.

Lemma health_after_startup_witness :
  worker_task (fst (startup_event unreachable_boot initial_globals)) = None /\
  exists rep,
    @health_check fake_collaborators "mood-analysis-queue"
      (fst (startup_event unreachable_boot initial_globals)) (Ok tt) = ([], Ok rep) /\
    status rep = "healthy".
Proof.
  destruct (@health_after_startup fake_collaborators "mood-analysis-queue"
              unreachable_boot) as (_ & _ & Hping).
  exact (Hping "redis://localhost:6379" (Error "Connection refused")
           eq_refl eq_refl eq_refl).
Defined.

(** X20: [load_model] does not raise; it answers with a flag.  The flag
    is [True] exactly when both the processor and the model were loaded
    and stored.  After a failure [model] is what it was, though the
    processor may already have been stored; the client and the worker
    task are never touched. *)
Theorem load_model_flag (b : boot) (g : globals) :
  let g' := fst (load_model b g) in
  (snd (load_model b g) = true <->
     exists p m, processor_from_pretrained b model_name = Return p /\
                 model_from_pretrained b model_name = Return m /\
                 processor g' = Some p /\ model g' = Some m) /\
  (snd (load_model b g) = false -> model g' = model g) /\
  (forall p e, processor_from_pretrained b model_name = Return p ->
     model_from_pretrained b model_name = Raise e ->
     snd (load_model b g) = false /\ processor g' = Some p) /\
  redis_client g' = redis_client g /\ worker_task g' = worker_task g.
Proof.
  unfold load_model.
  destruct (processor_from_pretrained b model_name) as [p|e].
  - destruct (model_from_pretrained b model_name) as [m|e]; simpl.
    + split; [|split; [|split]]; auto.
      * split; [intros _; now exists p, m | reflexivity].
      * discriminate.
      * intros p' e' _ Hm. discriminate.
    + split; [|split; [|split]]; auto.
      * split; [discriminate | intros (p' & m' & _ & Hm & _); discriminate].
      * intros p' e' Hp _. injection Hp as <-. auto.
  - simpl. split; [|split; [|split]]; auto.
    + split; [discriminate | intros (p' & m' & Hp & _); discriminate].
    + intros p' e' Hp. discriminate.
Qed.

Lemma load_model_flag_witness :
  snd (load_model healthy_boot initial_globals) = true.
Proof.
  apply (load_model_flag healthy_boot initial_globals).
  exists model_name, model_name. repeat split.
Defined.

End LifecycleLaws.
